(** * Inertia core: response processing, response queue and initial visit

    A shallow embedding of [packages/core/src/response.ts] and
    [packages/core/src/initialVisit.ts].

    - JavaScript values that travel through props, errors and session
      storage are an inductive type [JsVal]; objects are association
      lists in insertion order.  A property read looks at the own
      properties and then at the prototype chain; the built-in prototypes
      are a parameter ([Runtime]).
    - Module-level singletons ([currentPage], [History], [SessionStorage],
      the response queue) become fields of explicit state records that
      every operation receives and returns.
    - Callbacks and fired events are recorded, in order, in a trace.
    - [async] functions are run to completion where a single call is
      studied ([Response.process]) and become an explicit event-loop
      machine where interleaving matters ([ResponseQueue]). *)

From Stdlib Require Import ZArith List String Ascii Bool Lia DecimalString.
From stdpp Require Import base option gmap strings list.
Import ListNotations.
Local Open Scope string_scope.

(** ** JavaScript values *)

Set Warnings "-register-all".

(** JSON-like values.  Numbers are kept as integers: the code under study
    never computes with them, it only tests them for truthiness.  [JFun] is
    a built-in function, known by its name: no payload holds one, but a
    property read finds one when the name is that of an inherited method. *)
Inductive JsVal : Type :=
| JUndefined
| JNull
| JBool (b : bool)
| JNum (n : Z)
| JStr (s : string)
| JArr (xs : list JsVal)
| JObj (kvs : list (string * JsVal))
| JFun (name : string).

(** A plain object: keys with their values, in insertion order.  (Engines
    list integer-like keys first; reading a property does not depend on
    the order, and the properties below are stated through [Js.lookup].) *)
Abbreviation Obj := (list (string * JsVal)).

(** The kinds of value that have a prototype. *)
Inductive Kind : Type :=
| OfObject | OfArray | OfString | OfNumber | OfBoolean | OfFunction.

(** The built-in prototype objects of the JavaScript runtime: the method
    that a value of a kind inherits under a property name, found by
    walking its prototype chain up to [Object.prototype] ([constructor],
    [toString], [hasOwnProperty] for every value, [push] or [map] for
    arrays, and so on).  The string-keyed members of the built-in
    prototypes are functions, but for the accessor [__proto__], which
    [Js.inherited] and [Js.put] treat apart. *)
Class Runtime : Type := {
  builtin : Kind -> string -> option string
}.

Module Js.

(** ToBoolean. *)
Definition truthy (v : JsVal) : bool :=
  match v with
  | JUndefined | JNull => false
  | JBool b => b
  | JNum n => negb (n =? 0)%Z
  | JStr s => negb (String.eqb s "")
  | JArr _ | JObj _ | JFun _ => true
  end.

(** [a || b] *)
Definition or (a b : JsVal) : JsVal := if truthy a then a else b.

(** [Array.isArray(v)] *)
Definition isArray (v : JsVal) : bool :=
  match v with JArr _ => true | _ => false end.

(** [typeof v === 'object'] (true of [null], arrays and objects). *)
Definition typeofObject (v : JsVal) : bool :=
  match v with JNull | JArr _ | JObj _ => true | _ => false end.

(** [v] is an object that is not an array. *)
Definition isPlainObject (v : JsVal) : bool :=
  match v with JObj _ => true | _ => false end.

(** Own-property lookup; [None] when the key is absent. *)
Fixpoint lookup (o : Obj) (k : string) : option JsVal :=
  match o with
  | [] => None
  | (k', v) :: rest => if String.eqb k' k then Some v else lookup rest k
  end.

(** The prototype object of a kind of value, as far as the operations of
    the code under study can tell: [Array.prototype] is an empty array,
    [Function.prototype] a function, the others are objects without own
    enumerable properties. *)
Definition prototypeOf (kind : Kind) : JsVal :=
  match kind with
  | OfArray => JArr []
  | OfFunction => JFun ""
  | OfObject | OfString | OfNumber | OfBoolean => JObj []
  end.

(** What a property read finds on the prototype chain of a value of kind
    [kind]: the prototype itself under [__proto__], an inherited method,
    or [undefined]. *)
Definition inherited `{Runtime} (kind : Kind) (k : string) : JsVal :=
  if String.eqb k "__proto__" then prototypeOf kind
  else match builtin kind k with Some name => JFun name | None => JUndefined end.

(** [o[k]] on an object: the own property, else what the prototype chain
    holds under that name, else [undefined]. *)
Definition get `{Runtime} (o : Obj) (k : string) : JsVal :=
  match lookup o k with Some v => v | None => inherited OfObject k end.

(** Defining the own property [k] of [o] as [v]: an existing key keeps its
    position, a new key goes last. *)
Fixpoint set (o : Obj) (k : string) (v : JsVal) : Obj :=
  match o with
  | [] => [(k, v)]
  | (k', v') :: rest =>
      if String.eqb k' k then (k', v) :: rest else (k', v') :: set rest k v
  end.

(** [o[k] = v] as a statement, on an object with the built-in prototype:
    an own property is overwritten in place; otherwise the name
    [__proto__] goes to the inherited accessor, which gives the object
    [v] as its prototype and no own property (the new prototype is not
    tracked: only a later round of the loop that assigns could read
    through it); any other name becomes a new own property, last. *)
Definition put (o : Obj) (k : string) (v : JsVal) : Obj :=
  match lookup o k with
  | Some _ => set o k v
  | None => if String.eqb k "__proto__" then o else set o k v
  end.

(** [Object.assign(base, src)], the engine of object spread. *)
Definition assign (base src : Obj) : Obj :=
  fold_left (fun acc kv => set acc (fst kv) (snd kv)) src base.

(** [Object.keys(o)] *)
Definition keys (o : Obj) : list string := map fst o.

(** Decimal rendering of an array index, as used for property keys. *)
Definition indexKey (i : nat) : string :=
  NilZero.string_of_uint (Nat.to_uint i).

Fixpoint indexedFrom {A} (i : nat) (xs : list A) : list (string * A) :=
  match xs with
  | [] => []
  | x :: rest => (indexKey i, x) :: indexedFrom (S i) rest
  end.

(** The characters of a string, each as a one-character string.  (A
    string is a list of bytes here: its characters when it is ASCII.) *)
Fixpoint chars (s : string) : list JsVal :=
  match s with
  | EmptyString => []
  | String c rest => JStr (String c EmptyString) :: chars rest
  end.

(** The own enumerable properties copied by [{...v}].  Primitives other
    than strings contribute nothing; arrays and strings contribute their
    indices. *)
Definition ownEntries (v : JsVal) : Obj :=
  match v with
  | JObj kvs => kvs
  | JArr xs => indexedFrom 0 xs
  | JStr s => indexedFrom 0 (chars s)
  | _ => []
  end.

(** The elements produced by [[...v]].  Only arrays and strings are
    iterable; anything else makes the spread throw a [TypeError],
    rendered as [None]. *)
Definition iterate (v : JsVal) : option (list JsVal) :=
  match v with
  | JArr xs => Some xs
  | JStr s => Some (chars s)
  | _ => None
  end.

(** The [length] of an array or a string. *)
Definition lengthOf {A} (xs : list A) : JsVal := JNum (Z.of_nat (List.length xs)).

(** [v] is a boolean, a number, a string, an array or an object: what a
    payload can hold, [null] apart. *)
Definition isData (v : JsVal) : bool :=
  match v with
  | JBool _ | JNum _ | JStr _ | JArr _ | JObj _ => true
  | JUndefined | JNull | JFun _ => false
  end.

(** [v[k]] on a value for which [isData] holds: own enumerable properties
    first, then the own [length] of arrays and strings, then the
    prototype chain.  (On [null] and [undefined] the read throws, and the
    own [name] and [length] of a function are not modelled; the code
    under study reads from payload values that it has made truthy with
    [|| {}].) *)
Definition prop `{Runtime} (v : JsVal) (k : string) : JsVal :=
  match lookup (ownEntries v) k with
  | Some x => x
  | None =>
      match v with
      | JObj _ => inherited OfObject k
      | JArr xs => if String.eqb k "length" then lengthOf xs else inherited OfArray k
      | JStr s => if String.eqb k "length" then lengthOf (chars s) else inherited OfString k
      | JNum _ => inherited OfNumber k
      | JBool _ => inherited OfBoolean k
      | JFun _ => inherited OfFunction k
      | JUndefined | JNull => JUndefined
      end
  end.

(** [{...a, ...b}] *)
Definition spreadObject (a b : JsVal) : JsVal :=
  JObj (assign (assign [] (ownEntries a)) (ownEntries b)).

(** [[...a, ...b]] *)
Definition spreadArray (a b : JsVal) : option JsVal :=
  match iterate a, iterate b with
  | Some xs, Some ys => Some (JArr (xs ++ ys))
  | _, _ => None
  end.

End Js.

(** ** Data model *)

(** A captured scroll offset ([top], [left]). *)
Abbreviation ScrollRegion := (Z * Z)%type.

Module Page.

Record t : Type := mk {
  component : string;
  props : Obj;
  url : string;
  version : option string;
  rememberedState : option Obj;
  scrollRegions : option (list ScrollRegion);
  mergeProps : option (list string)
}.

Definition withProps (p : t) (ps : Obj) : t :=
  mk (component p) ps (url p) (version p) (rememberedState p)
     (scrollRegions p) (mergeProps p).

Definition withUrl (p : t) (u : string) : t :=
  mk (component p) (props p) u (version p) (rememberedState p)
     (scrollRegions p) (mergeProps p).

Definition withRememberedState (p : t) (st : option Obj) : t :=
  mk (component p) (props p) (url p) (version p) st
     (scrollRegions p) (mergeProps p).

Definition withScrollRegions (p : t) (rs : option (list ScrollRegion)) : t :=
  mk (component p) (props p) (url p) (version p) (rememberedState p)
     rs (mergeProps p).

End Page.

(** The parts of a WHATWG [URL] object that the code reads. *)
Module URL.

Record t : Type := mk {
  origin : string;
  pathname : string;
  search : string;
  hash : string
}.

Definition href (u : t) : string :=
  origin u ++ pathname u ++ search u ++ hash u.

Definition withHash (u : t) (h : string) : t :=
  mk (origin u) (pathname u) (search u) h.

End URL.

(** Modelled from the spec: the visit request parameters of
    [requestParams.ts], which is not among the sources.  The record keeps
    the flags that [response.ts] reads through [requestParams.all()];
    [isPartial] is the answer of [requestParams.isPartial()].  The callback
    hooks carry no data here: calling one is recorded in the trace. *)
Module RequestParams.

Record t : Type := mk {
  url : URL.t;
  prefetch : bool;
  async : bool;
  replace : bool;
  preserveScroll : bool;
  preserveState : bool;
  preserveUrl : bool;
  errorBag : option string;
  isPartial : bool
}.

Definition withPrefetch (p : t) (b : bool) : t :=
  mk (url p) b (async p) (replace p) (preserveScroll p) (preserveState p)
     (preserveUrl p) (errorBag p) (isPartial p).

End RequestParams.

(** The transport's response: status, headers and a body of Page shape. *)
Module AxiosResponse.

Record t : Type := mk {
  status : Z;
  headers : gmap string string;
  data : Page.t
}.

End AxiosResponse.

(** Options handed to [currentPage.set]. *)
Module VisitOptions.

Record t : Type := mk {
  replace : bool;
  preserveScroll : bool;
  preserveState : bool
}.

End VisitOptions.

(** Everything observable that the code does to its collaborators, in the
    order in which it happens. *)
Inductive Event : Type :=
| OnPrefetched
| PrefetchedEvent
| OnPrefetchResponse
| RunCallbacks
| LocationReload
| LocationAssign (href : string)
| InvalidEvent
| ModalShow
| PageSet (page : Page.t) (options : VisitOptions.t)
| ErrorEvent (errors : JsVal)
| OnError (errors : JsVal)
| SuccessEvent (page : Page.t)
| OnSuccess (page : Page.t)
| SessionSet (key : string) (value : JsVal)
| SessionRemove (key : string)
| HistoryDelete (key : string)
| HistoryDecrypt
| UrlHashSet (hash : string)
| ScrollRestore (page : Page.t)
| NavigateEvent (page : Page.t)
| MissingHistoryItem.

(** Modelled from the spec: the history adapter of [history.ts], which is
    not among the sources.  The entry attached to the current navigation
    position holds the serialized page ([payload] is what [decrypt()]
    resolves to, [None] when it rejects) plus remembered state and scroll
    regions; [preserveUrl] is the adapter's preserve-URL mode. *)
Module History.

Record Entry : Type := mkEntry {
  payload : option Page.t;
  rememberedState : option Obj;
  scrollRegions : option (list ScrollRegion)
}.

Record t : Type := mk {
  preserveUrl : bool;
  current : option Entry
}.

Definition withPreserveUrl (h : t) (b : bool) : t := mk b (current h).

(** [hasAnyState()] *)
Definition hasAnyState (h : t) : bool :=
  match current h with Some _ => true | None => false end.

(** [getState(rememberedState)] *)
Definition getRememberedState (h : t) : option Obj :=
  match current h with Some e => rememberedState e | None => None end.

(** [getState(scrollRegions)] *)
Definition getScrollRegions (h : t) : option (list ScrollRegion) :=
  match current h with Some e => scrollRegions e | None => None end.

(** [deleteState(rememberedState)] *)
Definition deleteRememberedState (h : t) : t :=
  match current h with
  | Some e => mk (preserveUrl h) (Some (mkEntry (payload e) None (scrollRegions e)))
  | None => h
  end.

(** [decrypt()]: the page it resolves to, [None] when it rejects. *)
Definition decrypt (h : t) : option Page.t :=
  match current h with Some e => payload e | None => None end.

End History.

(** [navigationType.ts] is not among the sources; the three kinds of
    navigation the resolver distinguishes. *)
Inductive NavigationType : Type := NavNavigate | NavReload | NavBackForward.

(** The browser-side state shared by every component. *)
Module World.

Record t : Type := mk {
  currentPage : Page.t;
  history : History.t;
  sessionStorage : gmap string JsVal;
  storageThrows : bool;
  location : URL.t;
  navigation : NavigationType;
  trace : list Event
}.

Definition withPage (w : t) (p : Page.t) : t :=
  mk p (history w) (sessionStorage w) (storageThrows w) (location w)
     (navigation w) (trace w).

Definition withHistory (w : t) (h : History.t) : t :=
  mk (currentPage w) h (sessionStorage w) (storageThrows w) (location w)
     (navigation w) (trace w).

Definition withSessionStorage (w : t) (s : gmap string JsVal) : t :=
  mk (currentPage w) (history w) s (storageThrows w) (location w)
     (navigation w) (trace w).

Definition emit (w : t) (e : Event) : t :=
  mk (currentPage w) (history w) (sessionStorage w) (storageThrows w)
     (location w) (navigation w) (trace w ++ [e]).

End World.

(** The functions of the collaborating modules that are not among the
    sources ([url.ts], [requestParams.ts], [events.ts], [page.ts]) and whose
    results the code under study only passes along, together with the
    runtime the code executes in. *)
Class Collaborators : Type := {
  runtime :: Runtime;
  hrefToUrl : string -> URL.t;
  (** the destination URL after [setHashIfSameUrl(origin, destination)] *)
  setHashIfSameUrl : URL.t -> URL.t -> URL.t;
  isSameUrlWithoutHash : URL.t -> URL.t -> bool;
  (** the parameters after [requestParams.setPreserveOptions(page)] *)
  setPreserveOptions : RequestParams.t -> Page.t -> RequestParams.t;
  (** the answer of [fireInvalidEvent(response)] *)
  fireInvalidEvent : AxiosResponse.t -> bool;
  (** the current page after [currentPage.setUrlHash(hash)] *)
  setUrlHash : Page.t -> string -> Page.t
}.

(** ** Page store and session storage *)

(** Modelled from the spec: the Page Store of [page.ts], which is not among
    the sources.  [set] replaces the current page as a whole, pushes or
    replaces the history position so that the entry attached to the
    current position is the snapshot of the committed page (its fields,
    with its remembered state and scroll regions), and is recorded in the
    trace with its options; the adapter's preserve-URL mode is read, not
    written.  [remember] and [scrollRegions] set the corresponding field
    of the current page. *)
Module CurrentPage.

Definition get (w : World.t) : Page.t := World.currentPage w.

Definition snapshot (page : Page.t) : History.Entry :=
  History.mkEntry (Some page) (Page.rememberedState page) (Page.scrollRegions page).

Definition set (w : World.t) (page : Page.t) (options : VisitOptions.t) : World.t :=
  let history :=
    History.mk (History.preserveUrl (World.history w)) (Some (snapshot page)) in
  World.emit (World.withHistory (World.withPage w page) history)
             (PageSet page options).

Definition remember (w : World.t) (state : Obj) : World.t :=
  World.withPage w (Page.withRememberedState (World.currentPage w) (Some state)).

Definition scrollRegions (w : World.t) (regions : list ScrollRegion) : World.t :=
  World.withPage w (Page.withScrollRegions (World.currentPage w) (Some regions)).

End CurrentPage.

(** Modelled from the spec: the session-scoped key/value store of
    [sessionStorage.ts], which is not among the sources ([exists], [get],
    [set], [remove]).  A missing key reads as [null]. *)
Module SessionStorage.

Definition locationVisitKey : string := "inertiaLocationVisit".

Definition exists_ (w : World.t) (key : string) : bool :=
  match World.sessionStorage w !! key with Some _ => true | None => false end.

Definition get (w : World.t) (key : string) : JsVal :=
  match World.sessionStorage w !! key with Some v => v | None => JNull end.

Definition set (w : World.t) (key : string) (value : JsVal) : World.t :=
  World.emit (World.withSessionStorage w (<[key := value]> (World.sessionStorage w)))
             (SessionSet key value).

Definition remove (w : World.t) (key : string) : World.t :=
  World.emit (World.withSessionStorage w (delete key (World.sessionStorage w)))
             (SessionRemove key).

End SessionStorage.

(** ** response.ts: the response queue *)

(** How a call of [process()] on a queued item ends. *)
Inductive Settlement : Type := Resolves | Rejects | NeverSettles.

(** What the queue needs to know of an item: for how many turns of the
    event loop its [process()] stays pending after it has been called, and
    how it settles then. *)
Class Processable (R : Type) : Type := {
  turns : R -> nat;
  settlement : R -> Settlement
}.

(** The queue together with the one activation of [process()] /
    [processQueue()] that can be in flight.  The machine moves when a
    response is handed in ([Handle]) and when the event loop resumes the
    activation at the promise it awaits ([Turn]).  The activation is
    suspended either at [await nextResponse.process()] or, once
    [processQueue()] has found the queue empty, at
    [await this.processQueue()] with [this.processing = false] still to
    come. *)
Module ResponseQueue.

Section Queue.
Context {R : Type} `{Processable R}.

(** Where the activation stands. *)
Inductive Activation : Type :=
| Idle
| Awaiting (nextResponse : R) (pending : nat)
| Unwinding.

(** Instrumentation: calls of [process()] on an item and their ends. *)
Inductive Mark : Type :=
| Started (r : R)
| Finished (r : R)
| Failed (r : R).

Record t : Type := mk {
  queue : list R;
  processing : bool;
  activation : Activation;
  journal : list Mark
}.

Definition empty : t := mk [] false Idle [].

Definition add (q : t) (response : R) : t :=
  mk (queue q ++ [response]) (processing q) (activation q) (journal q).

(** [processQueue()] up to its suspension: with an item, [process()] is
    called on it and awaited; without one the recursion ends and its
    promise resolves towards the [await] of [process()]. *)
Definition processQueue (q : t) : t :=
  match queue q with
  | nextResponse :: rest =>
      mk rest (processing q) (Awaiting nextResponse (turns nextResponse))
         (journal q ++ [Started nextResponse])
  | [] => mk [] (processing q) Unwinding (journal q)
  end.

Definition process (q : t) : t :=
  if processing q then q
  else processQueue (mk (queue q) true (activation q) (journal q)).

(** One turn of the event loop for the suspended activation. *)
Definition resume (q : t) : t :=
  match activation q with
  | Idle => q
  | Awaiting r (S k) => mk (queue q) (processing q) (Awaiting r k) (journal q)
  | Awaiting r O =>
      match settlement r with
      | Resolves =>
          processQueue (mk (queue q) (processing q) Idle (journal q ++ [Finished r]))
      | Rejects =>
          (* the rejection unwinds processQueue() and process():
             [this.processing = false] is not reached *)
          mk (queue q) (processing q) Idle (journal q ++ [Failed r])
      | NeverSettles => q
      end
  | Unwinding =>
      (* [this.processing = false] *)
      mk (queue q) false Idle (journal q)
  end.

Inductive Input : Type :=
| Handle (r : R)
| Turn.

(** [Handle r] is [Response.handle]: [queue.add(this)] then
    [queue.process()]. *)
Definition step (q : t) (i : Input) : t :=
  match i with
  | Handle r => process (add q r)
  | Turn => resume q
  end.

Definition run (q : t) (inputs : list Input) : t := fold_left step inputs q.

(** The responses handed in, in order. *)
Fixpoint handled (inputs : list Input) : list R :=
  match inputs with
  | [] => []
  | Handle r :: rest => r :: handled rest
  | Turn :: rest => handled rest
  end.

(** The responses whose [process()] was called, in order. *)
Fixpoint started (j : list Mark) : list R :=
  match j with
  | [] => []
  | Started r :: rest => r :: started rest
  | _ :: rest => started rest
  end.

(** The responses whose [process()] resolved, in order. *)
Fixpoint finished (j : list Mark) : list R :=
  match j with
  | [] => []
  | Finished r :: rest => r :: finished rest
  | _ :: rest => finished rest
  end.

(** The response whose [process()] is in flight, if any. *)
Definition inFlight (q : t) : option R :=
  match activation q with
  | Awaiting r _ => Some r
  | _ => None
  end.

(** A journal in which calls of [process()] do not overlap: a call starts
    only when none is open, and the call that ends is the open one. *)
Inductive Serial : list Mark -> option R -> Prop :=
| Serial_nil : Serial [] None
| Serial_start j r : Serial j None -> Serial (j ++ [Started r]) (Some r)
| Serial_finish j r : Serial j (Some r) -> Serial (j ++ [Finished r]) None
| Serial_fail j r : Serial j (Some r) -> Serial (j ++ [Failed r]) None.

(** No response is handed in while the activation, having found the
    queue empty, has yet to clear the flag. *)
Fixpoint calm (q : t) (inputs : list Input) : bool :=
  match inputs with
  | [] => true
  | i :: rest =>
      match i, activation q with
      | Handle _, Unwinding => false
      | _, _ => calm (step q i) rest
      end
  end.

(** Turns that suffice to drain the queue when every item resolves. *)
Definition budget (q : t) : nat :=
  match activation q with
  | Idle => 0
  | Awaiting _ k => S k + list_sum (map (fun r => S (turns r)) (queue q)) + 1
  | Unwinding => 1
  end.

(** What holds of the queue whatever is handed in and however the items
    settle: nothing is lost or reordered, calls do not overlap, and the
    flag is up while the activation is suspended. *)
Definition Sound (hs : list R) (q : t) : Prop :=
  (started (journal q) ++ queue q)%list = hs
  /\ Serial (journal q) (inFlight q)
  /\ (processing q = false -> activation q = Idle)
  /\ (activation q <> Idle -> processing q = true).

(** What holds in addition as long as every [process()] resolves and the
    inputs are calm: the flag is up only while the activation is
    suspended, nothing waits in the queue behind a cleared flag, and the
    calls that have resolved are the calls made, but for the one in
    flight. *)
Definition Live (q : t) : Prop :=
  (processing q = true -> activation q <> Idle)
  /\ (processing q = false -> queue q = [])
  /\ (activation q = Unwinding -> queue q = [])
  /\ (finished (journal q)
      ++ match inFlight q with Some r => [r] | None => [] end)%list
     = started (journal q)
  /\ (forall r, inFlight q = Some r -> settlement r = Resolves)
  /\ Forall (fun r => settlement r = Resolves) (queue q).

End Queue.

Arguments t R : clear implicits.
Arguments Input R : clear implicits.
Arguments Mark R : clear implicits.
Arguments Activation R : clear implicits.

End ResponseQueue.

(** ** response.ts: the response processor *)

(** How an [async] function ends: its promise resolves, or it rejects
    because something threw; the world is the one reached by then. *)
Inductive Settled (A : Type) : Type :=
| Resolved (a : A)
| Rejected (w : World.t).
Arguments Resolved {A} a.
Arguments Rejected {A} w.

Module Response.

Record t : Type := mk {
  requestParams : RequestParams.t;
  response : AxiosResponse.t;
  originatingPage : Page.t
}.

Definition create (params : RequestParams.t) (response : AxiosResponse.t)
    (originatingPage : Page.t) : t :=
  mk params response originatingPage.

Definition withParams (r : t) (params : RequestParams.t) : t :=
  mk params (response r) (originatingPage r).

Definition hasStatus (r : t) (status : Z) : bool :=
  (AxiosResponse.status (response r) =? status)%Z.

Definition getHeader (r : t) (header : string) : option string :=
  AxiosResponse.headers (response r) !! header.

Definition hasHeader (r : t) (header : string) : bool :=
  match getHeader r header with Some _ => true | None => false end.

Definition isInertiaResponse (r : t) : bool := hasHeader r "x-inertia".

Definition isLocationVisit (r : t) : bool :=
  hasStatus r 409 && hasHeader r "x-inertia-location".

Section WithRuntime.
Context `{Runtime}.

(** [getScopedErrors]: [errors[bag]] is a property read, which finds own
    and inherited properties alike. *)
Definition getScopedErrors (params : RequestParams.t) (errors : JsVal) : JsVal :=
  match RequestParams.errorBag params with
  | None => errors
  | Some bag =>
      if String.eqb bag "" then errors
      else Js.or (Js.prop errors bag) (JObj [])
  end.

(** One round of the [forEach] in [mergeProps]: the props of the incoming
    page after [prop] has been treated, [None] when a spread throws. *)
Definition mergeProp (current : Page.t) (incomingProps : Obj) (prop : string)
    : option Obj :=
  let incomingProp := Js.get incomingProps prop in
  let prior := Js.or (Js.get (Page.props current) prop) (JArr []) in
  if Js.isArray incomingProp then
    match Js.spreadArray prior incomingProp with
    | Some merged => Some (Js.put incomingProps prop merged)
    | None => None
    end
  else if Js.typeofObject incomingProp then
    Some (Js.put incomingProps prop (Js.spreadObject prior incomingProp))
  else Some incomingProps.

Fixpoint mergeEach (current : Page.t) (incomingProps : Obj) (propsToMerge : list string)
    : option Obj :=
  match propsToMerge with
  | [] => Some incomingProps
  | prop :: rest =>
      match mergeProp current incomingProps prop with
      | Some props' => mergeEach current props' rest
      | None => None
      end
  end.

(** [mergeProps]: the incoming page after merging, [None] when it throws. *)
Definition mergeProps (w : World.t) (r : t) (pageResponse : Page.t) : option Page.t :=
  let current := CurrentPage.get w in
  if RequestParams.isPartial (requestParams r)
     && String.eqb (Page.component pageResponse) (Page.component current)
  then
    let propsToMerge :=
      match Page.mergeProps pageResponse with Some l => l | None => [] end in
    match mergeEach current (Page.props pageResponse) propsToMerge with
    | Some merged =>
        Some (Page.withProps pageResponse (Js.assign (Js.assign [] (Page.props current)) merged))
    | None => None
    end
  else Some pageResponse.

End WithRuntime.

Definition setRememberedState (w : World.t) (r : t) (pageResponse : Page.t) : Page.t :=
  if RequestParams.preserveState (requestParams r)
     && (match History.getRememberedState (World.history w) with
         | Some _ => true
         | None => false
         end)
     && String.eqb (Page.component pageResponse) (Page.component (CurrentPage.get w))
  then Page.withRememberedState pageResponse (History.getRememberedState (World.history w))
  else pageResponse.

Section WithCollaborators.
Context `{Collaborators}.

Definition shouldSetPage (w : World.t) (r : t) (pageResponse : Page.t) : bool :=
  if negb (RequestParams.async (requestParams r)) then true
  else if negb (String.eqb (Page.component (originatingPage r)) (Page.component pageResponse))
  then true
  else if negb (String.eqb (Page.component (originatingPage r))
                           (Page.component (CurrentPage.get w)))
  then false
  else
    let originatingUrl := hrefToUrl (Page.url (originatingPage r)) in
    let currentPageUrl := hrefToUrl (Page.url (CurrentPage.get w)) in
    String.eqb (URL.origin originatingUrl) (URL.origin currentPageUrl)
    && String.eqb (URL.pathname originatingUrl) (URL.pathname currentPageUrl).

Definition pageUrl (r : t) (pageResponse : Page.t) : string :=
  let responseUrl := hrefToUrl (Page.url pageResponse) in
  URL.href (setHashIfSameUrl (RequestParams.url (requestParams r)) responseUrl).

(** [setPage]: the world and the response after the commit; [None] when
    [mergeProps] throws (nothing has been written by then). *)
Definition setPage (w : World.t) (r : t) : option (World.t * t) :=
  let pageResponse := AxiosResponse.data (response r) in
  if negb (shouldSetPage w r pageResponse) then Some (w, r)
  else
    match mergeProps w r pageResponse with
    | None => None
    | Some merged =>
        let remembered := setRememberedState w r merged in
        let params := setPreserveOptions (requestParams r) remembered in
        let r' := withParams r params in
        let url :=
          if History.preserveUrl (World.history w)
          then Page.url (CurrentPage.get w)
          else pageUrl r' remembered in
        let page := Page.withUrl remembered url in
        Some (CurrentPage.set w page
                (VisitOptions.mk (RequestParams.replace params)
                                 (RequestParams.preserveScroll params)
                                 (RequestParams.preserveState params)),
              r')
    end.

Definition locationVisit (w : World.t) (r : t) (url : URL.t) : World.t :=
  if World.storageThrows w then w
  else
    let w1 := SessionStorage.set w SessionStorage.locationVisitKey
                (JObj [("preserveScroll",
                        JBool (RequestParams.preserveScroll (requestParams r)))]) in
    if isSameUrlWithoutHash (World.location w1) url
    then World.emit w1 LocationReload
    else World.emit w1 (LocationAssign (URL.href url)).

Definition handleNonInertiaResponse (w : World.t) (r : t) : World.t :=
  if isLocationVisit r then
    match getHeader r "x-inertia-location" with
    | Some location =>
        let locationUrl :=
          setHashIfSameUrl (RequestParams.url (requestParams r)) (hrefToUrl location) in
        locationVisit w r locationUrl
    | None => w
    end
  else if fireInvalidEvent (response r)
  then World.emit (World.emit w InvalidEvent) ModalShow
  else World.emit w InvalidEvent.

(** [process], run to completion: every awaited promise ([setPage], the
    [onSuccess] callback) is taken to resolve and every callback to
    return. *)
Definition process (w : World.t) (r : t) : Settled (World.t * t) :=
  if RequestParams.prefetch (requestParams r) then
    let r' := withParams r (RequestParams.withPrefetch (requestParams r) false) in
    let w1 := World.emit w OnPrefetched in
    let w2 := World.emit w1 PrefetchedEvent in
    let w3 := World.emit w2 OnPrefetchResponse in
    Resolved (w3, r')
  else
    let w1 := World.emit w RunCallbacks in
    if negb (isInertiaResponse r) then Resolved (handleNonInertiaResponse w1 r, r)
    else
      let w2 := World.withHistory w1
                  (History.withPreserveUrl (World.history w1)
                     (RequestParams.preserveUrl (requestParams r))) in
      match setPage w2 r with
      | None => Rejected w2
      | Some (w3, r') =>
          let errors := Js.or (Js.get (Page.props (CurrentPage.get w3)) "errors") (JObj []) in
          if (0 <? length (Js.keys (Js.ownEntries errors)))%nat then
            let scopedErrors := getScopedErrors (requestParams r') errors in
            let w4 := World.emit w3 (ErrorEvent scopedErrors) in
            Resolved (World.emit w4 (OnError scopedErrors), r')
          else
            let w4 := World.emit w3 (SuccessEvent (CurrentPage.get w3)) in
            let w5 := World.emit w4 (OnSuccess (CurrentPage.get w4)) in
            Resolved (World.withHistory w5 (History.withPreserveUrl (World.history w5) false), r')
      end.

End WithCollaborators.

Section WithQueue.
Context `{Processable t}.

Definition handle (q : ResponseQueue.t t) (r : t) : ResponseQueue.t t :=
  ResponseQueue.process (ResponseQueue.add q r).

Definition handlePrefetch (w : World.t) (q : ResponseQueue.t t) (r : t)
    : ResponseQueue.t t :=
  if String.eqb (Page.component (CurrentPage.get w))
                (Page.component (AxiosResponse.data (response r)))
  then handle q r
  else q.

End WithQueue.

End Response.

(** ** initialVisit.ts: the initial-visit resolver *)

(** The three scenarios run promise chains ([history.decrypt().then(...)
    .catch(...)], [currentPage.set(...).then(...)]); each chain is the only
    thing left to do once [handle] has returned, so its callbacks are
    laid out right after the synchronous part, [Some] page standing for a
    resolved [decrypt()] and [None] for a rejected one. *)
Module InitialVisit.

Definition isReload (n : NavigationType) : bool :=
  match n with NavReload => true | _ => false end.

Definition isBackForward (n : NavigationType) : bool :=
  match n with NavBackForward => true | _ => false end.

Definition clearRememberedStateOnReload (w : World.t) : World.t :=
  if isReload (World.navigation w) then
    World.emit (World.withHistory w (History.deleteRememberedState (World.history w)))
               (HistoryDelete "rememberedState")
  else w.

Definition handleBackForward (w : World.t) : bool * World.t :=
  if negb (isBackForward (World.navigation w)) || negb (History.hasAnyState (World.history w))
  then (false, w)
  else
    let w1 := World.emit w HistoryDecrypt in
    match History.decrypt (World.history w1) with
    | Some data =>
        let w2 := CurrentPage.set w1 data (VisitOptions.mk false true true) in
        let w3 := World.emit w2 (ScrollRestore (CurrentPage.get w2)) in
        (true, World.emit w3 (NavigateEvent (CurrentPage.get w3)))
    | None => (true, World.emit w1 MissingHistoryItem)
    end.

Section WithCollaborators.
Context `{Collaborators}.

Definition handleLocation (w : World.t) : bool * World.t :=
  if negb (SessionStorage.exists_ w SessionStorage.locationVisitKey) then (false, w)
  else
    let locationVisit :=
      Js.or (SessionStorage.get w SessionStorage.locationVisitKey) (JObj []) in
    let preserveScroll :=
      Js.truthy (Js.prop locationVisit "preserveScroll") in
    let w1 := SessionStorage.remove w SessionStorage.locationVisitKey in
    let w2 := World.emit
                (World.withPage w1 (setUrlHash (CurrentPage.get w1) (URL.hash (World.location w1))))
                (UrlHashSet (URL.hash (World.location w1))) in
    let w3 := World.emit w2 HistoryDecrypt in
    match History.decrypt (World.history w3) with
    | Some _ =>
        let rememberedState :=
          match History.getRememberedState (World.history w3) with
          | Some st => st
          | None => []
          end in
        let scrollRegions :=
          match History.getScrollRegions (World.history w3) with
          | Some rs => rs
          | None => []
          end in
        let w4 := CurrentPage.remember w3 rememberedState in
        let w5 := CurrentPage.scrollRegions w4 scrollRegions in
        let w6 := CurrentPage.set w5 (CurrentPage.get w5)
                    (VisitOptions.mk false preserveScroll true) in
        let w7 := if preserveScroll
                  then World.emit w6 (ScrollRestore (CurrentPage.get w6))
                  else w6 in
        (true, World.emit w7 (NavigateEvent (CurrentPage.get w7)))
    | None => (true, World.emit w3 MissingHistoryItem)
    end.

(** [handleDefault] returns nothing, which [find] reads as false. *)
Definition handleDefault (w : World.t) : bool * World.t :=
  let w1 := World.emit
              (World.withPage w (setUrlHash (CurrentPage.get w) (URL.hash (World.location w))))
              (UrlHashSet (URL.hash (World.location w))) in
  let w2 := CurrentPage.set w1 (CurrentPage.get w1) (VisitOptions.mk false false true) in
  (false, World.emit w2 (NavigateEvent (CurrentPage.get w2))).

(** [scenarios.find(handler => handler())]: the handlers are called in
    order until one answers true. *)
Fixpoint find (scenarios : list (World.t -> bool * World.t)) (w : World.t) : World.t :=
  match scenarios with
  | [] => w
  | handler :: rest =>
      let (found, w') := handler w in
      if found then w' else find rest w'
  end.

Definition handle (w : World.t) : World.t :=
  find [handleBackForward; handleLocation; handleDefault]
       (clearRememberedStateOnReload w).

End WithCollaborators.

End InitialVisit.

(** ** The Vue 3 adapter: the app component

    The unnamed source file is the adapter's root component.  Its refs
    ([component], [page], [key]) are a state record; Vue's [h] is a free
    constructor of virtual nodes, [Date.now()] an argument. *)
Module App.

(** [h(type, props, () => child)]; components are known by name. *)
Inductive VNode : Type :=
| H (type : string) (props : Obj) (child : option VNode).

(** What [component.value.layout] can be when it is truthy. *)
Inductive Layout : Type :=
| LayoutFunction (layout : VNode -> VNode)
| LayoutArray (layouts : list string)
| LayoutComponent (layout : string).

(** A resolved page component: [inheritAttrs] and [layout] are [None]
    when the property is [undefined]. *)
Record Component : Type := mkComponent {
  name : string;
  inheritAttrs : option bool;
  layout : option Layout
}.

Record State : Type := mkState {
  component : option Component;
  page : Page.t;
  key : JsVal
}.

(** The refs once [setup] has run.  [resolveComponent] may find nothing,
    and [markRaw] throws on [null] and [undefined]: [None], before [page]
    or [key] is assigned. *)
Definition setup (resolveComponent : string -> option Component) (initialPage : Page.t)
    : option State :=
  match resolveComponent (Page.component initialPage) with
  | Some resolved => Some (mkState (Some resolved) initialPage JNull)
  | None => None
  end.

(** The [swapComponent] callback handed to [Inertia.init]. *)
Definition swapComponent (s : State) (argsComponent : Component) (argsPage : Page.t)
    (preserveState : bool) (now : Z) : State :=
  mkState (Some argsComponent) argsPage (if preserveState then key s else JNum now).

(** The render function returned by [setup]: the state after it (the
    component object may have got its [inheritAttrs]) and the node it
    returns, [None] for [undefined].  [layout.concat(child).reverse()]
    starts with [child], which [reduce], called without an initial value,
    takes as its first accumulator. *)
Definition render (s : State) : State * option VNode :=
  match component s with
  | None => (s, None)
  | Some c =>
      let c' :=
        match inheritAttrs c with
        | None => mkComponent (name c) (Some false) (layout c)
        | Some _ => c
        end in
      let props := Page.props (page s) in
      let child := H (name c') (Js.set (Js.assign [] props) "key" (key s)) None in
      let node :=
        match layout c' with
        | Some (LayoutFunction layout) => layout child
        | Some (LayoutArray layouts) =>
            fold_left (fun child layout => H layout (Js.assign [] props) (Some child))
                      (rev layouts) child
        | Some (LayoutComponent layout) => H layout (Js.assign [] props) (Some child)
        | None => child
        end in
      (mkState (Some c') (page s) (key s), Some node)
  end.

(** The layers of a tree of single-child nodes, outermost first. *)
Fixpoint layers (n : VNode) : list (string * Obj) :=
  match n with
  | H type props child =>
      (type, props) :: match child with Some c => layers c | None => [] end
  end.

End App.

(** ** A concrete setting for examples *)

Module Sample.

(** Splits [s] before the first occurrence of [c]. *)
Fixpoint splitBefore (c : ascii) (s : string) : string * string :=
  match s with
  | EmptyString => (EmptyString, EmptyString)
  | String a rest =>
      if Ascii.eqb a c then (EmptyString, s)
      else let (l, r) := splitBefore c rest in (String a l, r)
  end.

(** Splits an absolute href before the slash that starts its path (the
    third slash of [scheme://host/path]). *)
Fixpoint splitOrigin (slashes : nat) (s : string) : string * string :=
  match s with
  | EmptyString => (EmptyString, EmptyString)
  | String a rest =>
      if Ascii.eqb a "/" then
        match slashes with
        | O => (EmptyString, s)
        | S n => let (l, r) := splitOrigin n rest in (String a l, r)
        end
      else let (l, r) := splitOrigin slashes rest in (String a l, r)
  end.

(** A small URL reader for hrefs of the shape
    [scheme://host/path?query#fragment] or [/path?query#fragment]; the
    latter are resolved against [http://localhost]. *)
Definition parseUrl (href : string) : URL.t :=
  let (beforeHash, hash) := splitBefore "#" href in
  let (beforeSearch, search) := splitBefore "?" beforeHash in
  match beforeSearch with
  | String "/" _ => URL.mk "http://localhost" beforeSearch search hash
  | _ =>
      let (origin, pathname) := splitOrigin 2 beforeSearch in
      URL.mk origin (if String.eqb pathname "" then "/" else pathname) search hash
  end.

Definition withoutHash (u : URL.t) : URL.t := URL.withHash u "".

(** Some of the members of [Object.prototype], which every value
    inherits. *)
Definition objectMembers : list string :=
  ["toString"; "toLocaleString"; "valueOf"; "hasOwnProperty";
   "isPrototypeOf"; "propertyIsEnumerable"].

(** The function found under [constructor]. *)
Definition constructorOf (kind : Kind) : string :=
  match kind with
  | OfObject => "Object"
  | OfArray => "Array"
  | OfString => "String"
  | OfNumber => "Number"
  | OfBoolean => "Boolean"
  | OfFunction => "Function"
  end.

(** Some of the methods of the other built-in prototypes. *)
Definition members (kind : Kind) : list string :=
  match kind with
  | OfObject => []
  | OfArray => ["push"; "pop"; "map"; "filter"; "concat"; "join"]
  | OfString => ["charAt"; "slice"; "trim"]
  | OfNumber => ["toFixed"]
  | OfBoolean => []
  | OfFunction => ["call"; "apply"; "bind"]
  end.

Definition builtins : Runtime := {|
  builtin := fun kind k =>
    if String.eqb k "constructor" then Some (constructorOf kind)
    else if existsb (String.eqb k) (members kind ++ objectMembers)%list
    then Some k else None
|}.

#[global] Instance collaborators : Collaborators := {|
  runtime := builtins;
  hrefToUrl := parseUrl;
  setHashIfSameUrl := fun originUrl destinationUrl =>
    if negb (String.eqb (URL.hash originUrl) "")
       && String.eqb (URL.hash destinationUrl) ""
       && String.eqb (URL.href (withoutHash originUrl)) (URL.href destinationUrl)
    then URL.withHash destinationUrl (URL.hash originUrl)
    else destinationUrl;
  isSameUrlWithoutHash := fun a b =>
    String.eqb (URL.href (withoutHash a)) (URL.href (withoutHash b));
  setPreserveOptions := fun params _ => params;
  fireInvalidEvent := fun _ => true;
  setUrlHash := fun page hash =>
    Page.withUrl page (fst (splitBefore "#" (Page.url page)) ++ hash)
|}.

(** A queue item for experiments: a label and how its [process()] goes. *)
Record Job : Type := mkJob {
  label : string;
  jobTurns : nat;
  jobSettlement : Settlement
}.

#[global] Instance jobProcessable : Processable Job := {|
  turns := jobTurns;
  settlement := jobSettlement
|}.

(** Pages, parameters and worlds to try the definitions on. *)
Definition page (component url : string) (props : Obj) : Page.t :=
  Page.mk component props url None None None None.

Definition params (async : bool) : RequestParams.t :=
  RequestParams.mk (parseUrl "/users") false async false false false false None false.

Definition world (current : Page.t) : World.t :=
  World.mk current (History.mk false None) ∅ false (parseUrl "/users")
           NavNavigate [].

Definition inertiaResponse (data : Page.t) : AxiosResponse.t :=
  AxiosResponse.mk 200 {[ "x-inertia" := "true" ]} data.

Definition visit (async : bool) (originating incoming : Page.t) : Response.t :=
  Response.mk (params async) (inertiaResponse incoming) originating.

Definition worldWithHistory (current : Page.t) (h : History.t) : World.t :=
  World.mk current h ∅ false (parseUrl "/users") NavNavigate [].

Definition respond (p : RequestParams.t) (originating incoming : Page.t) : Response.t :=
  Response.mk p (inertiaResponse incoming) originating.

Definition prefetchParams : RequestParams.t :=
  RequestParams.mk (parseUrl "/users") true true false false false false None false.

Definition preserveUrlParams : RequestParams.t :=
  RequestParams.mk (parseUrl "/users") false false false false false true None false.

Definition preserveStateParams : RequestParams.t :=
  RequestParams.mk (parseUrl "/users") false false false false true false None false.

Definition errorBagParams (bag : string) : RequestParams.t :=
  RequestParams.mk (parseUrl "/login") false false false false false false (Some bag) false.


Definition rememberedHistory (state : Obj) : History.t :=
  History.mk false (Some (History.mkEntry None (Some state) None)).

(** Responses as queue items whose [process()] resolves at once. *)
Definition promptResponses : Processable Response.t := {|
  turns := fun _ => 0;
  settlement := fun _ => Resolves
|}.

Definition browser (current : Page.t) (h : History.t) (storage : gmap string JsVal)
    (n : NavigationType) : World.t :=
  World.mk current h storage false (parseUrl "/users#top") n [].

Definition marker : gmap string JsVal :=
  {[ SessionStorage.locationVisitKey := JObj [("preserveScroll", JBool true)] ]}.

End Sample.

(** * Properties *)

(** ** Staleness policy *)

(** C1. [shouldSetPage] follows the truth table: a synchronous visit always
    applies; an asynchronous one applies when the response's component
    differs from the originating page's; otherwise it is discarded when
    the current component differs from the originating one; otherwise it
    is discarded exactly when the originating and the current URL differ
    in origin or pathname, so that a difference in the query string alone
    still applies. *)
Theorem shouldSetPage_truth_table `{Collaborators}
    (w : World.t) (r : Response.t) (incoming : Page.t) :
  let async := RequestParams.async (Response.requestParams r) in
  let originating := Response.originatingPage r in
  let current := CurrentPage.get w in
  let originatingUrl := hrefToUrl (Page.url originating) in
  let currentPageUrl := hrefToUrl (Page.url current) in
  (async = false -> Response.shouldSetPage w r incoming = true)
  /\ (async = true ->
      Page.component originating <> Page.component incoming ->
      Response.shouldSetPage w r incoming = true)
  /\ (async = true ->
      Page.component originating = Page.component incoming ->
      Page.component originating <> Page.component current ->
      Response.shouldSetPage w r incoming = false)
  /\ (async = true ->
      Page.component originating = Page.component incoming ->
      Page.component originating = Page.component current ->
      (Response.shouldSetPage w r incoming = false <->
       URL.origin originatingUrl <> URL.origin currentPageUrl
       \/ URL.pathname originatingUrl <> URL.pathname currentPageUrl))
  /\ (async = true ->
      Page.component originating = Page.component incoming ->
      Page.component originating = Page.component current ->
      URL.origin originatingUrl = URL.origin currentPageUrl ->
      URL.pathname originatingUrl = URL.pathname currentPageUrl ->
      URL.search originatingUrl <> URL.search currentPageUrl ->
      Response.shouldSetPage w r incoming = true).
Proof.
  intros async originating current originatingUrl currentPageUrl.
  unfold Response.shouldSetPage.
  fold async originating current originatingUrl currentPageUrl.
  split; [| split; [| split; [| split]]]; [| | | intros Ha Hi Hc; split |].
  - intros ->. reflexivity.
  - intros -> Hne. apply String.eqb_neq in Hne. cbn. now rewrite Hne.
  - intros -> Heq Hne. apply String.eqb_eq in Heq. apply String.eqb_neq in Hne.
    cbn. now rewrite Heq, Hne.
  - intros Hfalse. revert Hfalse. rewrite Ha.
    apply String.eqb_eq in Hi, Hc. cbn. rewrite Hi, Hc. cbn.
    intros Hfalse. apply andb_false_iff in Hfalse.
    destruct Hfalse as [Ho | Hp]; [left | right]; now apply String.eqb_neq.
  - rewrite Ha. apply String.eqb_eq in Hi, Hc. cbn. rewrite Hi, Hc. cbn.
    intros [Ho | Hp]; apply String.eqb_neq in Ho || apply String.eqb_neq in Hp;
      apply andb_false_iff; auto.
  - intros -> Hi Hc Ho Hp _.
    apply String.eqb_eq in Hi, Hc, Ho, Hp. cbn. now rewrite Hi, Hc, Ho, Hp.
Qed.

Lemma shouldSetPage_truth_table_witness :
  let users1 := Sample.page "Users/Index" "/users?page=1" [] in
  let users2 := Sample.page "Users/Index" "/users?page=2" [] in
  let show1 := Sample.page "Users/Show" "/users/1" [] in
  let show2 := Sample.page "Users/Show" "/users/2" [] in
  Response.shouldSetPage (Sample.world show2) (Sample.visit false users1 users1) users1 = true
  /\ Response.shouldSetPage (Sample.world users1) (Sample.visit true users1 show1) show1 = true
  /\ Response.shouldSetPage (Sample.world show1) (Sample.visit true users1 users1) users1 = false
  /\ Response.shouldSetPage (Sample.world show2) (Sample.visit true show1 show1) show1 = false
  /\ Response.shouldSetPage (Sample.world users2) (Sample.visit true users1 users1) users1 = true.
Proof.
  intros users1 users2 show1 show2.
  split; [| split; [| split; [| split]]].
  - destruct (shouldSetPage_truth_table (Sample.world show2)
                (Sample.visit false users1 users1) users1) as (T & _).
    apply T. reflexivity.
  - destruct (shouldSetPage_truth_table (Sample.world users1)
                (Sample.visit true users1 show1) show1) as (_ & T & _).
    apply T; [reflexivity | vm_compute; discriminate].
  - destruct (shouldSetPage_truth_table (Sample.world show1)
                (Sample.visit true users1 users1) users1) as (_ & _ & T & _).
    apply T; [reflexivity | reflexivity | vm_compute; discriminate].
  - destruct (shouldSetPage_truth_table (Sample.world show2)
                (Sample.visit true show1 show1) show1) as (_ & _ & _ & T & _).
    apply T; [reflexivity | reflexivity | reflexivity |].
    right. vm_compute. discriminate.
  - destruct (shouldSetPage_truth_table (Sample.world users2)
                (Sample.visit true users1 users1) users1) as (_ & _ & _ & _ & T).
    apply T; try reflexivity. vm_compute. discriminate.
Defined.

(** ** Prefetch responses *)

(** C5. When the request is a prefetch, [process()] leaves the Page Store
    (and history and session storage) as they were; all it does is to call
    [onPrefetched], fire the prefetched event and call
    [onPrefetchResponse], in that order, and resolve: the request is not
    classified and no page is committed. *)
Theorem process_prefetch_leaves_page_store `{Collaborators}
    (w : World.t) (r : Response.t) :
  RequestParams.prefetch (Response.requestParams r) = true ->
  exists w' r',
    Response.process w r = Resolved (w', r')
    /\ CurrentPage.get w' = CurrentPage.get w
    /\ World.history w' = World.history w
    /\ World.sessionStorage w' = World.sessionStorage w
    /\ World.trace w' = (World.trace w ++ [OnPrefetched; PrefetchedEvent; OnPrefetchResponse])%list
    /\ RequestParams.prefetch (Response.requestParams r') = false.
Proof.
  intros Hprefetch. unfold Response.process. rewrite Hprefetch.
  eexists _, _. split; [reflexivity |].
  cbn. rewrite <- !app_assoc. auto.
Qed.

Lemma process_prefetch_leaves_page_store_witness :
  let current := Sample.page "Dashboard" "/dashboard" [] in
  let users := Sample.page "Users/Index" "/users" [] in
  exists w' r',
    Response.process (Sample.world current) (Sample.respond Sample.prefetchParams current users)
      = Resolved (w', r')
    /\ CurrentPage.get w' = current
    /\ World.trace w' = [OnPrefetched; PrefetchedEvent; OnPrefetchResponse].
Proof.
  intros current users.
  destruct (process_prefetch_leaves_page_store (Sample.world current)
              (Sample.respond Sample.prefetchParams current users) eq_refl)
    as (w' & r' & Hp & Hpage & _ & _ & Htrace & _).
  exists w', r'. auto.
Defined.

(** ** Preserve-URL mode *)

(** [setPage] leaves the preserve-URL mode as it finds it. *)
Lemma setPage_history `{Collaborators} (w w' : World.t) (r r' : Response.t) :
  Response.setPage w r = Some (w', r') ->
  History.preserveUrl (World.history w') = History.preserveUrl (World.history w).
Proof.
  unfold Response.setPage.
  destruct (negb _); [intros [= <- <-]; reflexivity |].
  destruct (Response.mergeProps _ _ _); [| discriminate].
  intros [= <- <-]. reflexivity.
Qed.

(** On the error path [process()] returns the result of [onError]; the
    statement that clears the preserve-URL mode comes after that return
    and is reached on the success path only. *)
Lemma process_error_path_preserveUrl `{Collaborators}
    (w w' : World.t) (r r' : Response.t) :
  RequestParams.prefetch (Response.requestParams r) = false ->
  Response.isInertiaResponse r = true ->
  Response.process w r = Resolved (w', r') ->
  Js.ownEntries (Js.or (Js.get (Page.props (CurrentPage.get w')) "errors") (JObj [])) <> [] ->
  History.preserveUrl (World.history w') = RequestParams.preserveUrl (Response.requestParams r).
Proof.
  intros Hprefetch Hinertia. unfold Response.process.
  rewrite Hprefetch, Hinertia. cbn [negb].
  destruct (Response.setPage _ r) as [[w3 r3] |] eqn:Hset; [| discriminate].
  apply setPage_history in Hset.
  destruct (0 <? _)%nat eqn:Herrors.
  - intros [= <- <-] _. cbn. rewrite Hset. reflexivity.
  - intros [= <- <-] Hne. exfalso.
    apply Nat.ltb_ge in Herrors. unfold Js.keys in Herrors. rewrite length_map in Herrors.
    unfold CurrentPage.get in *. cbn in Hne.
    destruct (Js.ownEntries _); [now apply Hne | cbn in Herrors; lia].
Qed.

Lemma process_success_path_preserveUrl `{Collaborators}
    (w w' : World.t) (r r' : Response.t) :
  RequestParams.prefetch (Response.requestParams r) = false ->
  Response.isInertiaResponse r = true ->
  Response.process w r = Resolved (w', r') ->
  Js.ownEntries (Js.or (Js.get (Page.props (CurrentPage.get w')) "errors") (JObj [])) = [] ->
  History.preserveUrl (World.history w') = false.
Proof.
  intros Hprefetch Hinertia. unfold Response.process.
  rewrite Hprefetch, Hinertia. cbn [negb].
  destruct (Response.setPage _ r) as [[w3 r3] |] eqn:Hset; [| discriminate].
  destruct (0 <? _)%nat eqn:Herrors.
  - intros [= <- <-] Hnil. exfalso.
    apply Nat.ltb_lt in Herrors. unfold Js.keys in Herrors. rewrite length_map in Herrors.
    unfold CurrentPage.get in *. cbn in Hnil.
    rewrite Hnil in Herrors. cbn in Herrors. lia.
  - intros [= <- <-] _. reflexivity.
Qed.

(** On the error path the error event and [onError] are the last things
    that happen, and both receive the scoped errors. *)
Lemma process_error_path_receives_scoped `{Collaborators}
    (w w' : World.t) (r r' : Response.t) :
  RequestParams.prefetch (Response.requestParams r) = false ->
  Response.isInertiaResponse r = true ->
  Response.process w r = Resolved (w', r') ->
  Js.ownEntries (Js.or (Js.get (Page.props (CurrentPage.get w')) "errors") (JObj [])) <> [] ->
  let scoped :=
    Response.getScopedErrors (Response.requestParams r')
      (Js.or (Js.get (Page.props (CurrentPage.get w')) "errors") (JObj [])) in
  exists before,
    World.trace w' = (before ++ [ErrorEvent scoped; OnError scoped])%list.
Proof.
  intros Hprefetch Hinertia. unfold Response.process.
  rewrite Hprefetch, Hinertia. cbn [negb].
  destruct (Response.setPage _ r) as [[w3 r3] |] eqn:Hset; [| discriminate].
  destruct (0 <? _)%nat eqn:Herrors.
  - intros [= <- <-] _. cbn. exists (World.trace w3).
    now rewrite <- app_assoc.
  - intros [= <- <-] Hne. exfalso.
    apply Nat.ltb_ge in Herrors. unfold Js.keys in Herrors. rewrite length_map in Herrors.
    unfold CurrentPage.get in *. cbn in Hne.
    destruct (Js.ownEntries _); [now apply Hne | cbn in Herrors; lia].
Qed.

(** C3. A protocol response that commits a page with a non-empty error bag
    for a visit with [preserveUrl]: when [process()] has resolved, the
    error event has been fired and [onError] called, and the preserve-URL
    mode is still on. *)
Theorem process_error_path_leaves_preserveUrl_set :
  let current := Sample.page "Users/Edit" "/users/1/edit" [] in
  let incoming :=
    Sample.page "Users/Edit" "/users/1/edit"
                [("errors", JObj [("name", JStr "The name field is required.")])] in
  let r := Sample.respond Sample.preserveUrlParams current incoming in
  exists w' r',
    Response.process (Sample.world current) r = Resolved (w', r')
    /\ World.trace w' =
         [RunCallbacks;
          PageSet incoming (VisitOptions.mk false false false);
          ErrorEvent (JObj [("name", JStr "The name field is required.")]);
          OnError (JObj [("name", JStr "The name field is required.")])]
    /\ History.preserveUrl (World.history (Sample.world current)) = false
    /\ History.preserveUrl (World.history w') = true.
Proof.
  intros current incoming r. eexists _, _.
  split; [vm_compute; reflexivity |].
  split; [reflexivity |]. split; reflexivity.
Qed.

(** ** Remembered state *)

Lemma mergeProps_component `{Runtime} (w : World.t) (r : Response.t) (incoming merged : Page.t) :
  Response.mergeProps w r incoming = Some merged ->
  Page.component merged = Page.component incoming
  /\ Page.rememberedState merged = Page.rememberedState incoming.
Proof.
  unfold Response.mergeProps.
  destruct (_ && _).
  - destruct (Response.mergeEach _ _ _); [| discriminate].
    intros [= <-]. split; reflexivity.
  - intros [= <-]. split; reflexivity.
Qed.

(** C7. [setRememberedState] copies the stored remembered state onto the
    incoming page exactly when the visit asked for [preserveState], the
    history entry holds remembered state and the incoming component is
    the current one; otherwise the incoming page is left as it is.  A
    page of another component never inherits it, and the page that
    [setPage] commits carries the state chosen this way. *)
Theorem setRememberedState_conditions `{Collaborators}
    (w : World.t) (r : Response.t) (incoming : Page.t) :
  let requested := RequestParams.preserveState (Response.requestParams r) in
  let stored := History.getRememberedState (World.history w) in
  let current := CurrentPage.get w in
  (requested = true -> is_Some stored ->
   Page.component incoming = Page.component current ->
   Response.setRememberedState w r incoming = Page.withRememberedState incoming stored)
  /\ (requested = false \/ stored = None
      \/ Page.component incoming <> Page.component current ->
      Response.setRememberedState w r incoming = incoming)
  /\ (Page.component incoming <> Page.component current ->
      Page.rememberedState (Response.setRememberedState w r incoming)
      = Page.rememberedState incoming)
  /\ (forall w' r',
      Response.shouldSetPage w r (AxiosResponse.data (Response.response r)) = true ->
      Response.setPage w r = Some (w', r') ->
      Page.rememberedState (CurrentPage.get w')
      = if requested
           && bool_decide (is_Some stored)
           && String.eqb (Page.component (AxiosResponse.data (Response.response r)))
                         (Page.component current)
        then stored
        else Page.rememberedState (AxiosResponse.data (Response.response r))).
Proof.
  intros requested stored current.
  assert (Hoff : requested = false \/ stored = None
                 \/ Page.component incoming <> Page.component current ->
                 Response.setRememberedState w r incoming = incoming).
  { unfold Response.setRememberedState. fold requested stored current.
    intros [-> | [-> | Hne]]; [reflexivity | now rewrite andb_false_r |].
    apply String.eqb_neq in Hne. now rewrite Hne, andb_false_r. }
  split; [| split; [exact Hoff | split]].
  - unfold Response.setRememberedState. fold requested stored current.
    intros -> [st ->] Heq. apply String.eqb_eq in Heq. now rewrite Heq.
  - intros Hne. rewrite Hoff; auto.
  - intros w' r' Hshould. unfold Response.setPage. rewrite Hshould. cbn [negb].
    destruct (Response.mergeProps w r _) as [merged |] eqn:Hmerge; [| discriminate].
    apply mergeProps_component in Hmerge as [Hc Hr].
    intros [= <- <-]. cbn. unfold Response.setRememberedState.
    fold requested stored current. rewrite Hc.
    destruct stored as [st |]; cbn.
    + destruct (requested && true && _); [reflexivity | exact Hr].
    + rewrite andb_false_r. exact Hr.
Qed.

Lemma setRememberedState_conditions_witness :
  let state := [("form", JObj [("name", JStr "Ada")])] in
  let current := Sample.page "Users/Edit" "/users/1/edit" [] in
  let same := Sample.page "Users/Edit" "/users/1/edit" [] in
  let other := Sample.page "Users/Index" "/users" [] in
  let w := Sample.worldWithHistory current (Sample.rememberedHistory state) in
  Response.setRememberedState w (Sample.respond Sample.preserveStateParams current same) same
    = Page.withRememberedState same (Some state)
  /\ Response.setRememberedState w (Sample.respond Sample.preserveStateParams current other) other
    = other.
Proof.
  intros state current same other w. split.
  - destruct (setRememberedState_conditions w
                (Sample.respond Sample.preserveStateParams current same) same) as (T & _).
    apply T; [reflexivity | eexists; reflexivity | reflexivity].
  - destruct (setRememberedState_conditions w
                (Sample.respond Sample.preserveStateParams current other) other) as (_ & T & _).
    apply T. right. right. vm_compute. discriminate.
Defined.

(** ** Prefetch gate *)

(** C9. [handlePrefetch] hands the response to the queue only when the
    current page's component is the component of the response payload;
    otherwise nothing happens: the queue, its flag and its journal of
    [process()] calls are as before. *)
Theorem handlePrefetch_gate `{Processable Response.t}
    (w : World.t) (q : ResponseQueue.t Response.t) (r : Response.t) :
  let incoming := AxiosResponse.data (Response.response r) in
  (Page.component (CurrentPage.get w) = Page.component incoming ->
   Response.handlePrefetch w q r = ResponseQueue.process (ResponseQueue.add q r))
  /\ (Page.component (CurrentPage.get w) <> Page.component incoming ->
      Response.handlePrefetch w q r = q
      /\ ResponseQueue.queue (Response.handlePrefetch w q r) = ResponseQueue.queue q
      /\ ResponseQueue.journal (Response.handlePrefetch w q r) = ResponseQueue.journal q).
Proof.
  intros incoming. unfold Response.handlePrefetch. fold incoming. split.
  - intros Heq. apply String.eqb_eq in Heq. now rewrite Heq.
  - intros Hne. apply String.eqb_neq in Hne. now rewrite Hne.
Qed.

Lemma handlePrefetch_gate_witness :
  let dashboard := Sample.page "Dashboard" "/dashboard" [] in
  let users := Sample.page "Users/Index" "/users" [] in
  let r := Sample.respond Sample.prefetchParams users users in
  @Response.handlePrefetch Sample.promptResponses (Sample.world dashboard) ResponseQueue.empty r
    = ResponseQueue.empty
  /\ @Response.handlePrefetch Sample.promptResponses (Sample.world users) ResponseQueue.empty r
    = ResponseQueue.mk [] true (ResponseQueue.Awaiting r 0) [ResponseQueue.Started r].
Proof.
  intros dashboard users r. split.
  - destruct (@handlePrefetch_gate Sample.promptResponses (Sample.world dashboard)
                ResponseQueue.empty r) as (_ & T).
    apply T. vm_compute. discriminate.
  - destruct (@handlePrefetch_gate Sample.promptResponses (Sample.world users)
                ResponseQueue.empty r) as (T & _).
    rewrite T; reflexivity.
Defined.

(** ** Error scoping *)

(** C10, as stated, fails: with a bag name configured the error event and
    [onError] receive whatever truthy value sits under that name.  Flat
    validation errors with a field called like the bag hand them a
    message string, not an object. *)
Lemma getScopedErrors_passes_message_through :
  let errors := JObj [("login", JStr "These credentials do not match our records.")] in
  let current := Sample.page "Auth/Login" "http://localhost/login" [] in
  let incoming := Sample.page "Auth/Login" "http://localhost/login" [("errors", errors)] in
  Response.getScopedErrors (Sample.errorBagParams "login") errors
    = JStr "These credentials do not match our records."
  /\ ~ (exists o : Obj, Response.getScopedErrors (Sample.errorBagParams "login") errors = JObj o)
  /\ exists w' r',
       Response.process (Sample.world current)
         (Sample.respond (Sample.errorBagParams "login") current incoming) = Resolved (w', r')
       /\ World.trace w' =
            [RunCallbacks;
             PageSet incoming (VisitOptions.mk false false false);
             ErrorEvent (JStr "These credentials do not match our records.");
             OnError (JStr "These credentials do not match our records.")].
Proof.
  intros errors current incoming.
  split; [reflexivity | split].
  - intros [o Ho]. vm_compute in Ho. discriminate Ho.
  - eexists _, _. split; [vm_compute; reflexivity | reflexivity].
Qed.

(** C10, amended.  Without a bag name ([null] or the empty string) the
    errors are returned unchanged.  With a bag name the result is what
    the property read [errors[bag]] finds whenever that is truthy, and
    the empty object when it is falsy or nothing is found.  The read
    finds an own entry first, so the result is an object whenever the
    entry is an error bag; when the errors object has no own entry of
    that name it finds what the prototype chain holds under it: a
    method for a name such as [constructor], nothing for an ordinary
    name (and the prototype itself for [__proto__]).  (The errors that [process()] passes are the [errors] prop of
    the committed page or an empty object: payload data, never [null].) *)
Theorem getScopedErrors_scoping `{Runtime} (params : RequestParams.t) (errors : JsVal) :
  (RequestParams.errorBag params = None \/ RequestParams.errorBag params = Some "" ->
   Response.getScopedErrors params errors = errors)
  /\ (forall bag, RequestParams.errorBag params = Some bag -> bag <> "" ->
      Js.isData errors = true ->
      let found := Js.prop errors bag in
      let own := Js.lookup (Js.ownEntries errors) bag in
      (Js.truthy found = true -> Response.getScopedErrors params errors = found)
      /\ (Js.truthy found = false -> Response.getScopedErrors params errors = JObj [])
      /\ (forall v, own = Some v -> found = v)
      /\ (forall o : Obj, own = Some (JObj o) ->
                 Response.getScopedErrors params errors = JObj o)
      /\ (forall o name, errors = JObj o -> own = None -> bag <> "__proto__" ->
                 builtin OfObject bag = Some name ->
                 Response.getScopedErrors params errors = JFun name)
      /\ (forall o, errors = JObj o -> own = None -> bag <> "__proto__" ->
                 builtin OfObject bag = None ->
                 Response.getScopedErrors params errors = JObj [])).
Proof.
  unfold Response.getScopedErrors. split.
  - intros [-> | ->]; reflexivity.
  - intros bag Hconfigured Hbag _. cbv zeta.
    rewrite Hconfigured. apply String.eqb_neq in Hbag. rewrite Hbag.
    unfold Js.or.
    split; [| split; [| split; [| split; [| split]]]].
    + intros Hv. now rewrite Hv.
    + intros Hv. now rewrite Hv.
    + intros v Hs. unfold Js.prop. now rewrite Hs.
    + intros o Hs. unfold Js.prop. now rewrite Hs.
    + intros o name -> Hs Hp Hb. apply String.eqb_neq in Hp.
      unfold Js.prop, Js.inherited. now rewrite Hs, Hp, Hb.
    + intros o -> Hs Hp Hb. apply String.eqb_neq in Hp.
      unfold Js.prop, Js.inherited. now rewrite Hs, Hp, Hb.
Qed.

Lemma getScopedErrors_scoping_witness :
  let bagged := JObj [("login", JObj [("email", JStr "The email field is required.")])] in
  let listed := JArr [JStr "The email field is required."] in
  Response.getScopedErrors (Sample.errorBagParams "login") bagged
    = JObj [("email", JStr "The email field is required.")]
  /\ Response.getScopedErrors (Sample.errorBagParams "register") bagged = JObj []
  /\ Response.getScopedErrors (Sample.errorBagParams "constructor") bagged
      = JFun "Object"
  /\ Response.getScopedErrors (Sample.errorBagParams "length") listed = JNum 1
  /\ Response.getScopedErrors (Sample.errorBagParams "") bagged = bagged.
Proof.
  intros bagged listed.
  split; [| split; [| split; [| split]]].
  - destruct (getScopedErrors_scoping (Sample.errorBagParams "login") bagged) as (_ & T).
    destruct (T "login" eq_refl ltac:(discriminate) eq_refl)
      as (_ & _ & _ & T' & _).
    apply T'. reflexivity.
  - destruct (getScopedErrors_scoping (Sample.errorBagParams "register") bagged) as (_ & T).
    destruct (T "register" eq_refl ltac:(discriminate) eq_refl)
      as (_ & _ & _ & _ & _ & T').
    apply (T' _ eq_refl); reflexivity || discriminate.
  - destruct (getScopedErrors_scoping (Sample.errorBagParams "constructor") bagged) as (_ & T).
    destruct (T "constructor" eq_refl ltac:(discriminate) eq_refl) as (_ & _ & _ & _ & T' & _).
    apply (T' _ _ eq_refl); reflexivity || discriminate.
  - destruct (getScopedErrors_scoping (Sample.errorBagParams "length") listed) as (_ & T).
    destruct (T "length" eq_refl ltac:(discriminate) eq_refl)
      as (T' & _).
    apply T'. reflexivity.
  - destruct (getScopedErrors_scoping (Sample.errorBagParams "") bagged) as (T & _).
    apply T. right. reflexivity.
Defined.

(** ** Initial visit *)

(** C6. [handle] first clears the stored remembered state when the
    navigation is a reload, and then runs the body of exactly one
    scenario on the world so obtained: back/forward restore when its
    guard holds; else location-visit resume when the marker is there;
    else the default.  The scenarios tried before the chosen one answer
    false and change nothing, and the ones after it are not called. *)
Theorem initialVisit_handle_one_scenario `{Collaborators} (w : World.t) :
  let w1 := InitialVisit.clearRememberedStateOnReload w in
  let backForward :=
    InitialVisit.isBackForward (World.navigation w1)
    && History.hasAnyState (World.history w1) in
  let resume := SessionStorage.exists_ w1 SessionStorage.locationVisitKey in
  (World.navigation w = NavReload ->
   History.getRememberedState (World.history w1) = None
   /\ World.trace w1 = (World.trace w ++ [HistoryDelete "rememberedState"])%list)
  /\ (World.navigation w <> NavReload -> w1 = w)
  /\ (backForward = true ->
      InitialVisit.handleBackForward w1 = (true, InitialVisit.handle w)
      /\ exists rest, World.trace (InitialVisit.handle w)
                      = (World.trace w1 ++ HistoryDecrypt :: rest)%list)
  /\ (backForward = false -> resume = true ->
      InitialVisit.handleBackForward w1 = (false, w1)
      /\ InitialVisit.handleLocation w1 = (true, InitialVisit.handle w)
      /\ exists rest, World.trace (InitialVisit.handle w)
                      = (World.trace w1
                         ++ SessionRemove SessionStorage.locationVisitKey :: rest)%list)
  /\ (backForward = false -> resume = false ->
      InitialVisit.handleBackForward w1 = (false, w1)
      /\ InitialVisit.handleLocation w1 = (false, w1)
      /\ InitialVisit.handleDefault w1 = (false, InitialVisit.handle w)
      /\ exists rest, World.trace (InitialVisit.handle w)
                      = (World.trace w1
                         ++ UrlHashSet (URL.hash (World.location w1)) :: rest)%list).
Proof.
  intros w1 backForward resume.
  split; [| split; [| split; [| split]]].
  - intros Hnav. unfold w1, InitialVisit.clearRememberedStateOnReload. rewrite Hnav. cbn.
    split; [| reflexivity].
    unfold History.getRememberedState, History.deleteRememberedState.
    destruct (History.current (World.history w)) as [e |] eqn:He; cbn; [reflexivity |].
    now rewrite He.
  - intros Hnav. unfold w1, InitialVisit.clearRememberedStateOnReload.
    destruct (World.navigation w); [reflexivity | contradiction | reflexivity].
  - intros Hbf. unfold InitialVisit.handle. fold w1. cbn [InitialVisit.find].
    unfold InitialVisit.handleBackForward. rewrite <- negb_andb. fold backForward.
    rewrite Hbf. cbn [negb].
    destruct (History.decrypt _); cbn.
    + split; [reflexivity |]. rewrite <- !app_assoc. eexists. reflexivity.
    + split; [reflexivity |]. rewrite <- !app_assoc. eexists. reflexivity.
  - intros Hbf Hresume.
    assert (Hfirst : InitialVisit.handleBackForward w1 = (false, w1)).
    { unfold InitialVisit.handleBackForward. rewrite <- negb_andb. fold backForward.
      now rewrite Hbf. }
    split; [exact Hfirst |].
    unfold InitialVisit.handle. fold w1. cbn [InitialVisit.find]. rewrite Hfirst.
    unfold InitialVisit.handleLocation. fold resume. rewrite Hresume. cbn [negb].
    destruct (History.decrypt _); cbn.
    + split; [reflexivity |]. destruct (Js.truthy _); cbn;
        rewrite <- !app_assoc; eexists; reflexivity.
    + split; [reflexivity |]. rewrite <- !app_assoc. eexists. reflexivity.
  - intros Hbf Hresume.
    assert (Hfirst : InitialVisit.handleBackForward w1 = (false, w1)).
    { unfold InitialVisit.handleBackForward. rewrite <- negb_andb. fold backForward.
      now rewrite Hbf. }
    assert (Hsecond : InitialVisit.handleLocation w1 = (false, w1)).
    { unfold InitialVisit.handleLocation. fold resume. now rewrite Hresume. }
    split; [exact Hfirst | split; [exact Hsecond |]].
    unfold InitialVisit.handle. fold w1. cbn [InitialVisit.find].
    rewrite Hfirst, Hsecond. cbn.
    split; [reflexivity |]. rewrite <- !app_assoc. eexists. reflexivity.
Qed.

Lemma initialVisit_handle_one_scenario_witness :
  let current := Sample.page "Users/Index" "/users" [] in
  let stored := Sample.page "Users/Show" "/users/1" [] in
  let entry := History.mk false (Some (History.mkEntry (Some stored) (Some []) None)) in
  let back := Sample.browser current entry Sample.marker NavBackForward in
  let resumed := Sample.browser current entry Sample.marker NavNavigate in
  let reloaded := Sample.browser current entry ∅ NavReload in
  InitialVisit.handleBackForward back = (true, InitialVisit.handle back)
  /\ InitialVisit.handleLocation resumed = (true, InitialVisit.handle resumed)
  /\ InitialVisit.handleDefault (InitialVisit.clearRememberedStateOnReload reloaded)
     = (false, InitialVisit.handle reloaded)
  /\ History.getRememberedState
       (World.history (InitialVisit.clearRememberedStateOnReload reloaded)) = None.
Proof.
  intros current stored entry back resumed reloaded.
  split; [| split; [| split]].
  - destruct (initialVisit_handle_one_scenario back) as (_ & _ & T & _).
    apply T. reflexivity.
  - destruct (initialVisit_handle_one_scenario resumed) as (_ & _ & _ & T & _).
    apply T; reflexivity.
  - destruct (initialVisit_handle_one_scenario reloaded) as (_ & _ & _ & _ & T).
    apply T; reflexivity.
  - destruct (initialVisit_handle_one_scenario reloaded) as (T & _).
    apply T. reflexivity.
Defined.

(** C8. When the marker is in session storage, [handleLocation] removes
    it before it asks the history adapter to decrypt: the marker is gone
    afterwards whatever [decrypt()] does, and when [decrypt()] rejects the
    missing-history-item signal is what follows. *)
Theorem handleLocation_consumes_marker `{Collaborators} (w : World.t) :
  SessionStorage.exists_ w SessionStorage.locationVisitKey = true ->
  exists w' rest,
    InitialVisit.handleLocation w = (true, w')
    /\ World.sessionStorage w' !! SessionStorage.locationVisitKey = None
    /\ World.trace w' =
         (World.trace w
          ++ [SessionRemove SessionStorage.locationVisitKey;
              UrlHashSet (URL.hash (World.location w));
              HistoryDecrypt]
          ++ rest)%list
    /\ (History.decrypt (World.history w) = None -> rest = [MissingHistoryItem])
    /\ (forall page, History.decrypt (World.history w) = Some page ->
        exists before, rest = (before ++ [NavigateEvent (CurrentPage.get w')])%list
                       /\ ~ In MissingHistoryItem rest).
Proof.
  intros Hexists. unfold InitialVisit.handleLocation. rewrite Hexists. cbn [negb].
  cbn -[SessionStorage.locationVisitKey Js.truthy Js.or Js.get Js.ownEntries].
  destruct (History.decrypt (World.history w)) as [page |] eqn:Hdecrypt.
  - destruct (Js.truthy _) eqn:Hscroll.
    + eexists _, _. split; [reflexivity |].
      cbn -[SessionStorage.locationVisitKey].
      split; [apply lookup_delete_eq |].
      split; [rewrite <- !app_assoc; cbn; reflexivity |].
      split; [discriminate |].
      intros _ _. eexists [_; _]. split; [reflexivity |].
      cbn. intros [E | [E | [E | []]]]; discriminate E.
    + eexists _, _. split; [reflexivity |].
      cbn -[SessionStorage.locationVisitKey].
      split; [apply lookup_delete_eq |].
      split; [rewrite <- !app_assoc; cbn; reflexivity |].
      split; [discriminate |].
      intros _ _. eexists [_]. split; [reflexivity |].
      cbn. intros [E | [E | []]]; discriminate E.
  - eexists _, _. split; [reflexivity |].
    cbn -[SessionStorage.locationVisitKey].
    split; [apply lookup_delete_eq |].
    split; [rewrite <- !app_assoc; cbn; reflexivity |].
    split; [reflexivity |]. discriminate.
Qed.

Lemma handleLocation_consumes_marker_witness :
  let current := Sample.page "Users/Index" "/users" [] in
  let broken := History.mk false (Some (History.mkEntry None None None)) in
  let w := Sample.browser current broken Sample.marker NavNavigate in
  exists w',
    InitialVisit.handleLocation w = (true, w')
    /\ World.sessionStorage w' !! SessionStorage.locationVisitKey = None
    /\ World.trace w' =
         [SessionRemove SessionStorage.locationVisitKey; UrlHashSet "#top";
          HistoryDecrypt; MissingHistoryItem].
Proof.
  intros current broken w.
  destruct (handleLocation_consumes_marker w eq_refl)
    as (w' & rest & Hrun & Hgone & Htrace & Hfail & _).
  exists w'. split; [exact Hrun | split; [exact Hgone |]].
  rewrite Htrace, (Hfail eq_refl). reflexivity.
Defined.

(** ** Prop merging *)

Lemma lookup_set (o : Obj) (k k' : string) (v : JsVal) :
  Js.lookup (Js.set o k v) k' = if String.eqb k k' then Some v else Js.lookup o k'.
Proof.
  induction o as [| [k0 v0] rest IH]; cbn.
  - destruct (String.eqb k k'); reflexivity.
  - destruct (String.eqb k0 k) eqn:E0; cbn.
    + apply String.eqb_eq in E0. subst k0.
      destruct (String.eqb k k'); reflexivity.
    + rewrite IH. destruct (String.eqb k0 k') eqn:E1; [| reflexivity].
      apply String.eqb_eq in E1. subst k0. now rewrite String.eqb_sym, E0.
Qed.








Lemma isArray_typeofObject (v : JsVal) :
  Js.isArray v = true -> Js.typeofObject v = true.
Proof. destruct v; cbn; congruence. Qed.











(** ** The response queue *)

Section QueueFacts.
Context {R : Type} `{Processable R}.

Import ResponseQueue.

(** Splits an invariant into its clauses and clears the routine ones. *)
Ltac clauses :=
  repeat split; intros; cbn in *;
  try solve [congruence | assumption | constructor; assumption].

Lemma started_app (a b : list (Mark R)) : started (a ++ b) = (started a ++ started b)%list.
Proof.
  induction a as [| m a IH]; cbn; [reflexivity |].
  destruct m; cbn; now rewrite IH.
Qed.

Lemma finished_app (a b : list (Mark R)) : finished (a ++ b) = (finished a ++ finished b)%list.
Proof.
  induction a as [| m a IH]; cbn; [reflexivity |].
  destruct m; cbn; now rewrite IH.
Qed.

Lemma handled_app (a b : list (Input R)) : handled (a ++ b) = (handled a ++ handled b)%list.
Proof.
  induction a as [| i a IH]; cbn; [reflexivity |].
  destruct i; cbn; now rewrite IH.
Qed.

Lemma run_app (q : t R) (a b : list (Input R)) : run q (a ++ b) = run (run q a) b.
Proof. apply fold_left_app. Qed.

Lemma calm_app (a : list (Input R)) (i : Input R) :
  forall q, calm q (a ++ [i]) = true ->
  calm q a = true
  /\ (forall r, i = Handle r -> activation (run q a) <> Unwinding).
Proof.
  induction a as [| x a IH]; intros q; cbn [app calm run fold_left].
  - intros Hcalm. split; [reflexivity |]. intros r -> Hact.
    rewrite Hact in Hcalm. discriminate.
  - destruct x as [r |].
    + destruct (activation q); try discriminate; apply IH.
    + apply IH.
Qed.

Lemma sound_empty : Sound [] (@empty R).
Proof. clauses. Qed.

Lemma sound_processQueue (hs : list R) (q : t R) :
  (started (journal q) ++ queue q)%list = hs ->
  Serial (journal q) None ->
  processing q = true ->
  Sound hs (processQueue q).
Proof.
  intros Hfifo Hserial Hflag. unfold processQueue.
  destruct (queue q) as [| r rest] eqn:Hq; clauses.
  rewrite started_app. cbn. now rewrite <- app_assoc.
Qed.

Lemma sound_step (hs : list R) (q : t R) (i : Input R) :
  Sound hs q -> Sound (hs ++ handled [i]) (step q i).
Proof.
  intros Hsound. pose proof Hsound as (Hfifo & Hserial & Hidle & Hbusy).
  destruct i as [r |]; cbn [step handled].
  - unfold process. cbn [add processing queue activation journal].
    destruct (processing q) eqn:Hflag.
    + clauses. now rewrite app_assoc, Hfifo.
    + pose proof (Hidle eq_refl) as Hact.
      apply sound_processQueue; cbn; [| | reflexivity].
      * now rewrite app_assoc, Hfifo.
      * unfold inFlight in Hserial. now rewrite Hact in Hserial.
  - rewrite app_nil_r. unfold resume.
    destruct (activation q) as [| r k |] eqn:Hact.
    + exact Hsound.
    + assert (Hflag : processing q = true) by (apply Hbusy; discriminate).
      unfold inFlight in Hserial. rewrite Hact in Hserial.
      destruct k as [| k].
      * destruct (settlement r).
        -- apply sound_processQueue; cbn; [| now constructor | exact Hflag].
           now rewrite started_app, app_nil_r.
        -- clauses. now rewrite started_app, app_nil_r.
        -- exact Hsound.
      * clauses.
    + unfold inFlight in Hserial. rewrite Hact in Hserial. clauses.
Qed.

Lemma sound_run (inputs : list (Input R)) : Sound (handled inputs) (run empty inputs).
Proof.
  induction inputs as [| i inputs IH] using rev_ind.
  - apply sound_empty.
  - rewrite run_app, handled_app. cbn [run fold_left]. now apply sound_step.
Qed.

Lemma live_empty : Live (@empty R).
Proof. clauses. Qed.

Lemma live_processQueue (q : t R) :
  processing q = true ->
  finished (journal q) = started (journal q) ->
  Forall (fun r => settlement r = Resolves) (queue q) ->
  Live (processQueue q).
Proof.
  intros Hflag Hdone Hall. unfold processQueue.
  destruct (queue q) as [| r rest] eqn:Hq.
  - clauses. now rewrite app_nil_r.
  - inversion Hall as [| ? ? Hr Hrest]; subst.
    clauses. now rewrite finished_app, started_app, Hdone, app_nil_r.
Qed.

Lemma live_step (hs : list R) (q : t R) (i : Input R) :
  Sound hs q -> Live q ->
  Forall (fun r => settlement r = Resolves) (handled [i]) ->
  (forall r, i = Handle r -> activation q <> Unwinding) ->
  Live (step q i).
Proof.
  intros (Hfifo & Hserial & Hidle & Hbusy) Hlive Hnew Hcalm.
  pose proof Hlive as (Hup & Hempty & Hunwound & Hdone & Hflight & Hall).
  destruct i as [r |]; cbn [step handled] in *.
  - inversion Hnew as [| ? ? Hr _]; subst.
    assert (Hall' : Forall (fun r => settlement r = Resolves) (queue q ++ [r])).
    { apply Forall_app. split; [exact Hall | now constructor]. }
    specialize (Hcalm r eq_refl).
    unfold process. cbn [add processing queue activation journal].
    destruct (processing q) eqn:Hflag.
    + clauses.
      * exact (Hup eq_refl).
      * now apply Hflight.
    + pose proof (Hidle eq_refl) as Hact.
      apply live_processQueue; cbn; [reflexivity | | exact Hall'].
      unfold inFlight in Hdone. rewrite Hact in Hdone. now rewrite app_nil_r in Hdone.
  - unfold resume. destruct (activation q) as [| r k |] eqn:Hact.
    + exact Hlive.
    + unfold inFlight in Hdone, Hflight. rewrite Hact in Hdone, Hflight.
      assert (Hflag : processing q = true) by (apply Hbusy; discriminate).
      destruct k as [| k].
      * rewrite (Hflight r eq_refl).
        apply live_processQueue; cbn; [exact Hflag | | exact Hall].
        now rewrite finished_app, started_app, app_nil_r.
      * clauses. now apply Hflight.
    + unfold inFlight in Hdone. rewrite Hact in Hdone. clauses. now apply Hunwound.
Qed.

Lemma live_run (inputs : list (Input R)) :
  Forall (fun r => settlement r = Resolves) (handled inputs) ->
  calm empty inputs = true ->
  Live (run empty inputs).
Proof.
  induction inputs as [| i inputs IH] using rev_ind.
  - intros _ _. apply live_empty.
  - rewrite run_app, handled_app. intros Hall Hcalm.
    apply Forall_app in Hall as [Hold Hnew].
    apply calm_app in Hcalm as [Hcalm Hlast].
    cbn [run fold_left].
    eapply live_step; [apply sound_run | now apply IH | exact Hnew | exact Hlast].
Qed.

Lemma budget_resume (q : t R) :
  Live q -> activation q <> Idle -> S (budget (resume q)) = budget q.
Proof.
  intros (_ & _ & _ & _ & Hflight & _) Hact. unfold inFlight in Hflight.
  unfold resume. unfold budget at 2.
  destruct (activation q) as [| r k |] eqn:Hq; [contradiction | | reflexivity].
  destruct k as [| k].
  - rewrite (Hflight r eq_refl). unfold processQueue, budget.
    destruct (queue q) as [| r' rest]; cbn; lia.
  - unfold budget. cbn. reflexivity.
Qed.

(** With every [process()] resolving, [budget q] turns empty the queue
    and clear the flag. *)
Lemma drain (n : nat) :
  forall (hs : list R) (q : t R),
  Sound hs q -> Live q -> budget q = n ->
  let q' := run q (repeat Turn n) in
  Sound hs q' /\ Live q' /\ queue q' = [] /\ processing q' = false.
Proof.
  induction n as [| n IH]; intros hs q Hsound Hlive Hbudget; cbn [repeat run fold_left].
  - split; [exact Hsound | split; [exact Hlive |]].
    destruct Hlive as (Hup & Hempty & _).
    assert (Hact : activation q = Idle).
    { unfold budget in Hbudget. destruct (activation q); [reflexivity | lia | lia]. }
    destruct (processing q) eqn:Hflag.
    + exfalso. now apply (Hup eq_refl).
    + split; [now apply Hempty | reflexivity].
  - assert (Hact : activation q <> Idle).
    { intros Hact. unfold budget in Hbudget. rewrite Hact in Hbudget. lia. }
    pose proof (budget_resume q Hlive Hact) as Hless.
    apply (IH hs (resume q)).
    + pose proof (sound_step hs q Turn Hsound) as Hs. cbn in Hs.
      now rewrite app_nil_r in Hs.
    + apply (live_step hs q Turn Hsound Hlive); [constructor | discriminate].
    + lia.
Qed.

(** What the queue does keep of its discipline.  Whatever is handed in
    and however the event loop interleaves: [process()] is called on the
    responses in the order in which they were enqueued, with none skipped
    ([started] followed by the waiting queue is the list of responses
    handed in), and no two calls overlap.  When, moreover, the
    [process()] of every response handed in resolves and none is handed
    in while a drain that found the queue empty has yet to clear the
    flag, a bounded number of further turns leaves the queue empty and
    idle with every response processed, in order. *)
Theorem queue_fifo_serial_and_drains (inputs : list (Input R)) :
  let q := run empty inputs in
  (started (journal q) ++ queue q)%list = handled inputs
  /\ Serial (journal q) (inFlight q)
  /\ (Forall (fun r => settlement r = Resolves) (handled inputs) ->
      calm empty inputs = true ->
      let q' := run empty (inputs ++ repeat Turn (budget q)) in
      started (journal q') = handled inputs
      /\ finished (journal q') = handled inputs
      /\ Serial (journal q') None
      /\ queue q' = []
      /\ processing q' = false).
Proof.
  intros q. pose proof (sound_run inputs) as Hsound. fold q in Hsound.
  split; [apply Hsound | split; [apply Hsound |]].
  intros Hall Hcalm q'. pose proof (live_run inputs Hall Hcalm) as Hlive. fold q in Hlive.
  destruct (drain (budget q) (handled inputs) q Hsound Hlive eq_refl)
    as (Hsound' & Hlive' & Hq & Hflag).
  unfold q'. rewrite run_app. fold q.
  set (final := run q (repeat Turn (budget q))) in *.
  destruct Hsound' as (Hfifo & Hserial & Hidle & _).
  destruct Hlive' as (_ & _ & _ & Hdone & _).
  pose proof (Hidle Hflag) as Hact.
  unfold inFlight in Hserial, Hdone. rewrite Hact in Hserial, Hdone.
  rewrite Hq, app_nil_r in Hfifo. rewrite app_nil_r in Hdone.
  repeat split; congruence.
Qed.

(** Turns change nothing in a state that a turn leaves as it is. *)
Lemma run_turns_fixed (q : t R) (n : nat) :
  resume q = q -> run q (repeat Turn n) = q.
Proof.
  intros Hfix. induction n as [| n IH]; cbn [repeat run fold_left step]; [reflexivity |].
  rewrite Hfix. exact IH.
Qed.

End QueueFacts.

Lemma queue_fifo_serial_and_drains_witness :
  let a := Sample.mkJob "a" 1 Resolves in
  let b := Sample.mkJob "b" 0 Resolves in
  let c := Sample.mkJob "c" 2 Resolves in
  let inputs :=
    [ResponseQueue.Handle a; ResponseQueue.Handle b; ResponseQueue.Turn;
     ResponseQueue.Handle c] in
  let q := ResponseQueue.run ResponseQueue.empty
             (inputs ++ repeat ResponseQueue.Turn 6) in
  ResponseQueue.started (ResponseQueue.journal q) = [a; b; c]
  /\ ResponseQueue.finished (ResponseQueue.journal q) = [a; b; c]
  /\ ResponseQueue.queue q = []
  /\ ResponseQueue.processing q = false.
Proof.
  intros a b c inputs q.
  destruct (queue_fifo_serial_and_drains inputs) as (_ & _ & T).
  destruct T as (Hstarted & Hfinished & _ & Hqueue & Hflag).
  - repeat constructor.
  - reflexivity.
  - repeat split; assumption.
Defined.

(** The drain waits at its [await] for as long as a [process()] takes: a
    response whose [process()] never settles keeps the response enqueued
    behind it waiting, however long the event loop runs. *)
Lemma queue_stalls_behind_pending_process :
  let first := Sample.mkJob "first" 0 NeverSettles in
  let second := Sample.mkJob "second" 0 Resolves in
  ~ (exists n,
       In second
          (ResponseQueue.started
             (ResponseQueue.journal
                (ResponseQueue.run ResponseQueue.empty
                   ([ResponseQueue.Handle first; ResponseQueue.Handle second]
                    ++ repeat ResponseQueue.Turn n))))).
Proof.
  intros first second [n Hin].
  rewrite run_app in Hin.
  rewrite run_turns_fixed in Hin by reflexivity.
  cbn in Hin. destruct Hin as [Heq | []]. discriminate Heq.
Qed.

(** C2, on the code.  The [process()] of the first response throws.  The
    rejection leaves [processQueue] at its [await], so that
    [this.processing = false] in [process] is skipped: the flag stays up,
    and the response handed in next is enqueued, finds the flag set and
    waits.  However many turns the event loop takes, [process()] is never
    called on it, although its predecessor has settled and it was
    accepted. *)
Theorem queue_wedged_after_rejection (n : nat) :
  let first := Sample.mkJob "first" 0 Rejects in
  let second := Sample.mkJob "second" 0 Resolves in
  let q :=
    ResponseQueue.run ResponseQueue.empty
      ([ResponseQueue.Handle first; ResponseQueue.Turn; ResponseQueue.Handle second]
       ++ repeat ResponseQueue.Turn n) in
  q = ResponseQueue.mk [second] true ResponseQueue.Idle
        [ResponseQueue.Started first; ResponseQueue.Failed first]
  /\ ResponseQueue.inFlight q = None
  /\ In second (ResponseQueue.queue q)
  /\ ~ In second (ResponseQueue.started (ResponseQueue.journal q)).
Proof.
  intros first second q.
  assert (Hq : q = ResponseQueue.mk [second] true ResponseQueue.Idle
                     [ResponseQueue.Started first; ResponseQueue.Failed first]).
  { unfold q. rewrite run_app. now rewrite run_turns_fixed by reflexivity. }
  rewrite Hq. split; [reflexivity | split; [reflexivity | split; [now left |]]].
  cbn. intros [Heq | []]. discriminate Heq.
Qed.

(** A response handed in after the drain has found the queue empty and
    before the flag is cleared waits in the queue; the next [handle]
    starts it, ahead of the newcomer. *)
Lemma queue_late_arrival_waits_for_next_handle (n : nat) :
  let first := Sample.mkJob "first" 0 Resolves in
  let second := Sample.mkJob "second" 0 Resolves in
  let third := Sample.mkJob "third" 0 Resolves in
  let late :=
    ([ResponseQueue.Handle first; ResponseQueue.Turn; ResponseQueue.Handle second;
      ResponseQueue.Turn] ++ repeat ResponseQueue.Turn n)%list in
  ResponseQueue.run ResponseQueue.empty late
  = ResponseQueue.mk [second] false ResponseQueue.Idle
      [ResponseQueue.Started first; ResponseQueue.Finished first]
  /\ ResponseQueue.run ResponseQueue.empty (late ++ [ResponseQueue.Handle third])
     = ResponseQueue.mk [third] true (ResponseQueue.Awaiting second 0)
         [ResponseQueue.Started first; ResponseQueue.Finished first;
          ResponseQueue.Started second].
Proof.
  intros first second third late.
  assert (Hlate : ResponseQueue.run ResponseQueue.empty late
                  = ResponseQueue.mk [second] false ResponseQueue.Idle
                      [ResponseQueue.Started first; ResponseQueue.Finished first]).
  { unfold late. rewrite run_app. now rewrite run_turns_fixed by reflexivity. }
  split; [exact Hlate |].
  rewrite run_app, Hlate. reflexivity.
Qed.

(** * Further properties of the code *)

(** ** Responses that are not protocol responses *)

(** X1. A response without the [x-inertia] header (and not a prefetch) is
    never applied: [process()] resolves with the current page and the
    history adapter, preserve-URL mode included, as they were.  After
    [runCallbacks] it does nothing but write the location-visit marker,
    navigate the browser, fire the invalid event or show the modal. *)
Theorem process_non_protocol_keeps_page `{Collaborators} (w : World.t) (r : Response.t) :
  RequestParams.prefetch (Response.requestParams r) = false ->
  Response.isInertiaResponse r = false ->
  exists w' rest,
    Response.process w r = Resolved (w', r)
    /\ CurrentPage.get w' = CurrentPage.get w
    /\ World.history w' = World.history w
    /\ World.trace w' = (World.trace w ++ RunCallbacks :: rest)%list
    /\ Forall (fun e => match e with
                        | SessionSet _ _ | LocationReload | LocationAssign _
                        | InvalidEvent | ModalShow => True
                        | _ => False
                        end) rest.
Proof.
  intros Hprefetch Hinertia. unfold Response.process. rewrite Hprefetch, Hinertia. cbn [negb].
  unfold Response.handleNonInertiaResponse, Response.locationVisit.
  destruct (Response.isLocationVisit r).
  - destruct (Response.getHeader r _) as [location |].
    + cbn. destruct (World.storageThrows w).
      * exists (World.emit w RunCallbacks), []. repeat split; auto.
      * destruct (isSameUrlWithoutHash _ _);
          eexists _, [_; _]; (split; [reflexivity |]); cbn;
          rewrite <- !app_assoc; repeat split; auto.
    + exists (World.emit w RunCallbacks), []. repeat split; auto.
  - destruct (fireInvalidEvent _).
    + eexists _, [_; _]. split; [reflexivity |]. cbn.
      rewrite <- !app_assoc. repeat split; auto.
    + eexists _, [_]. split; [reflexivity |]. cbn.
      rewrite <- !app_assoc. repeat split; auto.
Qed.

Lemma process_non_protocol_keeps_page_witness :
  let current := Sample.page "Users/Index" "/users" [] in
  let html := AxiosResponse.mk 500 ∅ (Sample.page "" "" []) in
  exists w',
    Response.process (Sample.world current) (Response.mk (Sample.params false) html current)
      = Resolved (w', Response.mk (Sample.params false) html current)
    /\ CurrentPage.get w' = current.
Proof.
  intros current html.
  destruct (process_non_protocol_keeps_page (Sample.world current)
              (Response.mk (Sample.params false) html current) eq_refl eq_refl)
    as (w' & rest & Hrun & Hpage & _).
  exists w'. split; [exact Hrun | exact Hpage].
Defined.

(** X2. A location visit (status 409 with an [x-inertia-location] header,
    no [x-inertia] header): the marker holding the visit's [preserveScroll]
    choice is written to session storage first, and then the browser
    reloads when the target equals the current location up to the hash, or
    is sent to the target otherwise.  When session storage throws, nothing
    at all happens after [runCallbacks]: no marker and no navigation. *)
Theorem process_location_visit `{Collaborators}
    (w : World.t) (r : Response.t) (location : string) :
  RequestParams.prefetch (Response.requestParams r) = false ->
  Response.isInertiaResponse r = false ->
  AxiosResponse.status (Response.response r) = 409%Z ->
  Response.getHeader r "x-inertia-location" = Some location ->
  let target :=
    setHashIfSameUrl (RequestParams.url (Response.requestParams r)) (hrefToUrl location) in
  let marker :=
    JObj [("preserveScroll",
           JBool (RequestParams.preserveScroll (Response.requestParams r)))] in
  (World.storageThrows w = true ->
   Response.process w r = Resolved (World.emit w RunCallbacks, r))
  /\ (World.storageThrows w = false ->
      exists w',
        Response.process w r = Resolved (w', r)
        /\ World.sessionStorage w' !! SessionStorage.locationVisitKey = Some marker
        /\ World.trace w' =
             (World.trace w
              ++ [RunCallbacks;
                  SessionSet SessionStorage.locationVisitKey marker;
                  if isSameUrlWithoutHash (World.location w) target
                  then LocationReload
                  else LocationAssign (URL.href target)])%list).
Proof.
  intros Hprefetch Hinertia Hstatus Hheader target marker.
  unfold Response.process. rewrite Hprefetch, Hinertia. cbn [negb].
  unfold Response.handleNonInertiaResponse, Response.isLocationVisit,
    Response.hasStatus, Response.hasHeader.
  rewrite Hstatus, Hheader. cbn [Z.eqb Pos.eqb andb].
  fold target. unfold Response.locationVisit. cbn [World.storageThrows World.emit].
  split; intros Hthrows; rewrite Hthrows; [reflexivity |].
  fold marker. eexists. split; [reflexivity |].
  split.
  - destruct (isSameUrlWithoutHash _ _); cbn; apply lookup_insert_eq.
  - cbn [World.location SessionStorage.set World.emit World.withSessionStorage].
    destruct (isSameUrlWithoutHash _ _); cbn; now rewrite <- !app_assoc.
Qed.

Lemma process_location_visit_witness :
  let current := Sample.page "Users/Index" "/users" [] in
  let redirect :=
    AxiosResponse.mk 409 {[ "x-inertia-location" := "https://example.com/login" ]}
                     (Sample.page "" "" []) in
  let r := Response.mk (Sample.params false) redirect current in
  exists w',
    Response.process (Sample.world current) r = Resolved (w', r)
    /\ World.trace w' =
         [RunCallbacks;
          SessionSet SessionStorage.locationVisitKey (JObj [("preserveScroll", JBool false)]);
          LocationAssign "https://example.com/login"].
Proof.
  intros current redirect r.
  destruct (process_location_visit (Sample.world current) r "https://example.com/login"
              eq_refl eq_refl eq_refl eq_refl) as (_ & T).
  destruct (T eq_refl) as (w' & Hrun & _ & Htrace).
  exists w'. split; [exact Hrun | exact Htrace].
Defined.

(** X3. The marker makes the round trip: what [locationVisit] stores is
    what [handleLocation] finds at the next startup.  The marker is
    consumed, and when the history entry decrypts the current page is
    committed with the [preserveScroll] of the redirected visit and
    [preserveState], scroll positions being restored exactly when that
    visit preserved scroll. *)
Theorem locationVisit_marker_round_trip `{Collaborators}
    (w : World.t) (r : Response.t) (url : URL.t) (next : World.t) (stored : Page.t) :
  World.storageThrows w = false ->
  World.sessionStorage next = World.sessionStorage (Response.locationVisit w r url) ->
  History.decrypt (World.history next) = Some stored ->
  let preserveScroll := RequestParams.preserveScroll (Response.requestParams r) in
  exists w',
    InitialVisit.handleLocation next = (true, w')
    /\ World.sessionStorage w' !! SessionStorage.locationVisitKey = None
    /\ World.trace w' =
         (World.trace next
          ++ [SessionRemove SessionStorage.locationVisitKey;
              UrlHashSet (URL.hash (World.location next));
              HistoryDecrypt;
              PageSet (CurrentPage.get w') (VisitOptions.mk false preserveScroll true)]
          ++ (if preserveScroll then [ScrollRestore (CurrentPage.get w')] else [])
          ++ [NavigateEvent (CurrentPage.get w')])%list.
Proof.
  intros Hthrows Hstorage Hdecrypt preserveScroll.
  assert (Hmarker : World.sessionStorage next !! SessionStorage.locationVisitKey
                    = Some (JObj [("preserveScroll", JBool preserveScroll)])).
  { rewrite Hstorage. unfold Response.locationVisit. rewrite Hthrows.
    destruct (isSameUrlWithoutHash _ _); cbn; apply lookup_insert_eq. }
  unfold InitialVisit.handleLocation, SessionStorage.exists_, SessionStorage.get.
  rewrite Hmarker. cbn [negb].
  cbn -[SessionStorage.locationVisitKey].
  rewrite Hdecrypt.
  change (RequestParams.preserveScroll (Response.requestParams r)) with preserveScroll.
  destruct preserveScroll; eexists; (split; [reflexivity |]);
    cbn -[SessionStorage.locationVisitKey];
    (split; [apply lookup_delete_eq |]); now rewrite <- !app_assoc.
Qed.

Lemma locationVisit_marker_round_trip_witness :
  let current := Sample.page "Users/Index" "/users" [] in
  let r := Response.mk (RequestParams.mk (Sample.parseUrl "/users") false false false
                          true false false None false)
                       (Sample.inertiaResponse current) current in
  let left := Response.locationVisit (Sample.world current) r (Sample.parseUrl "/login") in
  let next :=
    Sample.browser current
      (History.mk false (Some (History.mkEntry (Some current) None None)))
      (World.sessionStorage left) NavNavigate in
  exists w',
    InitialVisit.handleLocation next = (true, w')
    /\ In (ScrollRestore (CurrentPage.get w')) (World.trace w').
Proof.
  intros current r left next.
  destruct (locationVisit_marker_round_trip (Sample.world current) r (Sample.parseUrl "/login")
              next current eq_refl eq_refl eq_refl) as (w' & Hrun & _ & Htrace).
  exists w'. split; [exact Hrun |].
  rewrite Htrace. cbn. auto 10.
Defined.

(** X4. A response that is neither a protocol response nor a location
    visit (no [x-inertia] header, and a status other than 409 or no
    [x-inertia-location] header) fires the invalid event and shows the
    modal exactly when the event was not cancelled; session storage is
    not touched and the browser is not navigated. *)
Theorem process_invalid_response `{Collaborators} (w : World.t) (r : Response.t) :
  RequestParams.prefetch (Response.requestParams r) = false ->
  Response.isInertiaResponse r = false ->
  AxiosResponse.status (Response.response r) <> 409%Z
  \/ Response.getHeader r "x-inertia-location" = None ->
  exists w',
    Response.process w r = Resolved (w', r)
    /\ World.sessionStorage w' = World.sessionStorage w
    /\ World.trace w' =
         (World.trace w ++ [RunCallbacks; InvalidEvent]
          ++ (if fireInvalidEvent (Response.response r) then [ModalShow] else []))%list.
Proof.
  intros Hprefetch Hinertia Hnot.
  unfold Response.process. rewrite Hprefetch, Hinertia. cbn [negb].
  assert (Hlocation : Response.isLocationVisit r = false).
  { unfold Response.isLocationVisit, Response.hasStatus, Response.hasHeader.
    destruct Hnot as [Hstatus | Hheader].
    - apply Z.eqb_neq in Hstatus. now rewrite Hstatus.
    - rewrite Hheader. apply andb_false_r. }
  unfold Response.handleNonInertiaResponse. rewrite Hlocation.
  destruct (fireInvalidEvent _); eexists; (split; [reflexivity |]); cbn;
    now rewrite <- !app_assoc.
Qed.

Lemma process_invalid_response_witness :
  let current := Sample.page "Users/Index" "/users" [] in
  let conflict := AxiosResponse.mk 409 ∅ (Sample.page "" "" []) in
  let r := Response.mk (Sample.params false) conflict current in
  exists w',
    Response.process (Sample.world current) r = Resolved (w', r)
    /\ World.trace w' = [RunCallbacks; InvalidEvent; ModalShow].
Proof.
  intros current conflict r.
  destruct (process_invalid_response (Sample.world current) r eq_refl eq_refl
              (or_intror eq_refl)) as (w' & Hrun & _ & Htrace).
  exists w'. split; [exact Hrun | exact Htrace].
Defined.

(** ** Protocol responses *)

Lemma shouldSetPage_reads_page `{Collaborators} (w1 w2 : World.t) (r : Response.t) (p : Page.t) :
  CurrentPage.get w1 = CurrentPage.get w2 ->
  Response.shouldSetPage w1 r p = Response.shouldSetPage w2 r p.
Proof. intros Hpage. unfold Response.shouldSetPage. now rewrite Hpage. Qed.

Lemma keys_nil_iff (o : Obj) : (0 <? length (Js.keys o))%nat = false <-> o = [].
Proof.
  unfold Js.keys. rewrite length_map. destruct o; cbn; split; congruence.
Qed.

(** X5. A stale protocol response ([shouldSetPage] answers false) commits
    nothing, yet its callbacks still run, on the page that is current:
    with no errors on the current page the success event and [onSuccess]
    receive the current page and the preserve-URL mode is cleared; with
    errors on it the error event and [onError] receive them, scoped. *)
Theorem process_stale_response `{Collaborators} (w : World.t) (r : Response.t) :
  RequestParams.prefetch (Response.requestParams r) = false ->
  Response.isInertiaResponse r = true ->
  Response.shouldSetPage w r (AxiosResponse.data (Response.response r)) = false ->
  let current := CurrentPage.get w in
  let errors := Js.or (Js.get (Page.props current) "errors") (JObj []) in
  let scoped := Response.getScopedErrors (Response.requestParams r) errors in
  exists w',
    Response.process w r = Resolved (w', r)
    /\ CurrentPage.get w' = current
    /\ (Js.ownEntries errors = [] ->
        World.trace w' =
          (World.trace w ++ [RunCallbacks; SuccessEvent current; OnSuccess current])%list
        /\ History.preserveUrl (World.history w') = false)
    /\ (Js.ownEntries errors <> [] ->
        World.trace w' =
          (World.trace w ++ [RunCallbacks; ErrorEvent scoped; OnError scoped])%list).
Proof.
  intros Hprefetch Hinertia Hstale current errors scoped.
  unfold Response.process. rewrite Hprefetch, Hinertia. cbn [negb].
  unfold Response.setPage.
  rewrite (shouldSetPage_reads_page _ w) by reflexivity.
  rewrite Hstale. cbn [negb].
  change (CurrentPage.get (World.withHistory (World.emit w RunCallbacks) _)) with current.
  fold errors.
  destruct (0 <? _)%nat eqn:Hkeys.
  - eexists. split; [reflexivity |]. split; [reflexivity |]. split.
    + intros Hnil. rewrite Hnil in Hkeys. discriminate.
    + intros _. cbn. now rewrite <- !app_assoc.
  - apply keys_nil_iff in Hkeys.
    eexists. split; [reflexivity |]. split; [reflexivity |]. split.
    + intros _. cbn. split; [now rewrite <- !app_assoc | reflexivity].
    + intros Hne. contradiction.
Qed.

Lemma process_stale_response_witness :
  let show1 := Sample.page "Users/Show" "/users/1" [] in
  let show2 := Sample.page "Users/Show" "/users/2" [] in
  exists w',
    Response.process (Sample.world show2) (Sample.visit true show1 show1)
      = Resolved (w', Sample.visit true show1 show1)
    /\ World.trace w' = [RunCallbacks; SuccessEvent show2; OnSuccess show2].
Proof.
  intros show1 show2.
  assert (Hstale : Response.shouldSetPage (Sample.world show2) (Sample.visit true show1 show1)
                     (AxiosResponse.data (Response.response (Sample.visit true show1 show1)))
                   = false) by (vm_compute; reflexivity).
  destruct (process_stale_response (Sample.world show2) (Sample.visit true show1 show1)
              eq_refl eq_refl Hstale) as (w' & Hrun & _ & Hclean & _).
  exists w'. split; [exact Hrun |]. now apply Hclean.
Defined.

Lemma mergeProps_keeps_url `{Runtime} (w : World.t) (r : Response.t) (incoming merged : Page.t) :
  Response.mergeProps w r incoming = Some merged -> Page.url merged = Page.url incoming.
Proof.
  unfold Response.mergeProps. destruct (_ && _).
  - destruct (Response.mergeEach _ _ _); [| discriminate]. now intros [= <-].
  - now intros [= <-].
Qed.

Lemma setRememberedState_keeps_url (w : World.t) (r : Response.t) (p : Page.t) :
  Page.url (Response.setRememberedState w r p) = Page.url p.
Proof. unfold Response.setRememberedState. now destruct (_ && _). Qed.

(** X6. The URL of the page after a protocol response: a visit with
    [preserveUrl] never changes the URL of the current page, whether the
    response is applied or discarded; without [preserveUrl] an applied
    response sets it to the response's URL, resolved by [hrefToUrl] and
    given the request's hash by [setHashIfSameUrl]. *)
Theorem process_commits_url `{Collaborators} (w w' : World.t) (r r' : Response.t) :
  RequestParams.prefetch (Response.requestParams r) = false ->
  Response.isInertiaResponse r = true ->
  Response.process w r = Resolved (w', r') ->
  (RequestParams.preserveUrl (Response.requestParams r) = true ->
   Page.url (CurrentPage.get w') = Page.url (CurrentPage.get w))
  /\ (RequestParams.preserveUrl (Response.requestParams r) = false ->
      Response.shouldSetPage w r (AxiosResponse.data (Response.response r)) = true ->
      Page.url (CurrentPage.get w')
      = URL.href (setHashIfSameUrl (RequestParams.url (Response.requestParams r'))
                    (hrefToUrl (Page.url (AxiosResponse.data (Response.response r)))))).
Proof.
  intros Hprefetch Hinertia. unfold Response.process.
  rewrite Hprefetch, Hinertia. cbn [negb].
  destruct (Response.setPage _ r) as [[w3 r3] |] eqn:Hset; [| discriminate].
  intros Hrun.
  assert (Hpage : CurrentPage.get w' = CurrentPage.get w3 /\ r' = r3).
  { destruct (0 <? _)%nat; injection Hrun as <- <-; split; reflexivity. }
  destruct Hpage as [-> ->]. clear Hrun.
  revert Hset. unfold Response.setPage.
  rewrite (shouldSetPage_reads_page _ w) by reflexivity.
  destruct (Response.shouldSetPage w r _) eqn:Hshould; cbn [negb].
  - destruct (Response.mergeProps _ r _) as [merged |] eqn:Hmerge; [| discriminate].
    apply mergeProps_keeps_url in Hmerge.
    intros [= <- <-]. cbn. split.
    + intros ->. reflexivity.
    + intros -> _. unfold Response.pageUrl. cbn.
      now rewrite setRememberedState_keeps_url, Hmerge.
  - intros [= <- <-]. split; [reflexivity | discriminate].
Qed.

Lemma process_commits_url_witness :
  let current := Sample.page "Users/Index" "/users?page=1" [] in
  let incoming := Sample.page "Users/Index" "/users?page=2" [] in
  exists w' r',
    Response.process (Sample.world current)
      (Sample.respond Sample.preserveUrlParams current incoming) = Resolved (w', r')
    /\ Page.url (CurrentPage.get w') = "/users?page=1".
Proof.
  intros current incoming.
  destruct (Response.process (Sample.world current)
              (Sample.respond Sample.preserveUrlParams current incoming))
    as [[w' r'] | wr] eqn:Hrun.
  - exists w', r'. split; [reflexivity |].
    destruct (process_commits_url (Sample.world current) w'
                (Sample.respond Sample.preserveUrlParams current incoming) r'
                eq_refl eq_refl Hrun) as (T & _).
    now apply T.
  - vm_compute in Hrun. discriminate Hrun.
Defined.

(** ** Prop merging: when it throws, and the keys it leaves *)










(** ** The queue after a rejection *)

Section QueueWedge.
Context {R : Type} `{Processable R}.

Import ResponseQueue.

Lemma wedged_stays (inputs : list (Input R)) :
  forall q : t R,
  processing q = true -> activation q = Idle ->
  journal (run q inputs) = journal q
  /\ queue (run q inputs) = (queue q ++ handled inputs)%list
  /\ processing (run q inputs) = true
  /\ activation (run q inputs) = Idle.
Proof.
  induction inputs as [| i inputs IH]; intros q Hflag Hact; cbn [run fold_left handled].
  - now rewrite app_nil_r.
  - assert (Hstep : step q i = match i with
                               | Handle r => add q r
                               | Turn => q
                               end).
    { destruct i as [r |]; cbn [step].
      - unfold process. cbn. now rewrite Hflag.
      - unfold resume. now rewrite Hact. }
    fold (run (step q i) inputs). rewrite Hstep.
    destruct i as [r |].
    + destruct (IH (add q r) Hflag Hact) as (Hj & Hq & Hp & Ha).
      cbn in *. rewrite Hj, Hq, <- app_assoc. auto.
    + now apply IH.
Qed.

(** X9. Once the [process()] of a response has rejected, the queue never
    calls [process()] again: from any state the queue can reach, the
    rejection is recorded, the flag stays up, and whatever is handed in
    afterwards only piles up in the queue, for any further inputs and
    turns of the event loop. *)
Theorem queue_never_recovers_from_rejection (before after : list (Input R)) (r : R) :
  let q := run empty before in
  activation q = Awaiting r 0 ->
  settlement r = Rejects ->
  let q' := run empty (before ++ Turn :: after) in
  journal q' = (journal q ++ [Failed r])%list
  /\ queue q' = (queue q ++ handled after)%list
  /\ started (journal q') = started (journal q)
  /\ processing q' = true
  /\ inFlight q' = None.
Proof.
  intros q Hact Hrejects q'. unfold q'. rewrite run_app. fold q.
  cbn [run fold_left step]. fold (run (resume q) after).
  assert (Hflag : processing q = true).
  { destruct (sound_run before) as (_ & _ & _ & Hbusy). fold q in Hbusy.
    apply Hbusy. rewrite Hact. discriminate. }
  assert (Hresume : resume q = mk (queue q) true Idle (journal q ++ [Failed r])).
  { unfold resume. now rewrite Hact, Hrejects, Hflag. }
  rewrite Hresume.
  destruct (wedged_stays after (mk (queue q) true Idle (journal q ++ [Failed r]))
              eq_refl eq_refl) as (Hj & Hq & Hp & Ha).
  unfold inFlight. rewrite Hj, Hq, Hp, Ha. cbn [journal queue].
  rewrite started_app. cbn. rewrite app_nil_r. auto.
Qed.

End QueueWedge.

Lemma queue_never_recovers_from_rejection_witness :
  let failing := Sample.mkJob "failing" 0 Rejects in
  let a := Sample.mkJob "a" 0 Resolves in
  let b := Sample.mkJob "b" 0 Resolves in
  let q' := ResponseQueue.run ResponseQueue.empty
              ([ResponseQueue.Handle failing]
               ++ [ResponseQueue.Turn; ResponseQueue.Handle a; ResponseQueue.Turn;
                   ResponseQueue.Handle b; ResponseQueue.Turn]) in
  ResponseQueue.journal q' = [ResponseQueue.Started failing; ResponseQueue.Failed failing]
  /\ ResponseQueue.queue q' = [a; b].
Proof.
  intros failing a b q'.
  destruct (@queue_never_recovers_from_rejection Sample.Job Sample.jobProcessable
              [ResponseQueue.Handle failing]
              [ResponseQueue.Handle a; ResponseQueue.Turn; ResponseQueue.Handle b;
               ResponseQueue.Turn] failing eq_refl eq_refl) as (Hj & Hq & _).
  split; [exact Hj | exact Hq].
Defined.

(** ** The initial visit *)

Lemma clearRememberedStateOnReload_frame (w : World.t) :
  let w1 := InitialVisit.clearRememberedStateOnReload w in
  World.navigation w1 = World.navigation w
  /\ World.sessionStorage w1 = World.sessionStorage w
  /\ World.currentPage w1 = World.currentPage w
  /\ World.location w1 = World.location w
  /\ History.hasAnyState (World.history w1) = History.hasAnyState (World.history w)
  /\ History.decrypt (World.history w1) = History.decrypt (World.history w)
  /\ History.getScrollRegions (World.history w1) = History.getScrollRegions (World.history w)
  /\ History.getRememberedState (World.history w1)
     = (if InitialVisit.isReload (World.navigation w) then None
        else History.getRememberedState (World.history w)).
Proof.
  unfold InitialVisit.clearRememberedStateOnReload.
  destruct (InitialVisit.isReload (World.navigation w)); cbn; [| tauto].
  unfold History.deleteRememberedState, History.hasAnyState, History.decrypt,
    History.getScrollRegions, History.getRememberedState.
  destruct (History.current (World.history w)) as [e |] eqn:He; cbn; rewrite ?He; tauto.
Qed.

(** X10. The location-visit marker is consumed by the resume scenario
    only: a startup that restores a back/forward entry, or that finds no
    marker, leaves session storage exactly as it was.  In particular a
    marker present during a back/forward restore survives it. *)
Theorem initialVisit_keeps_session_storage `{Collaborators} (w : World.t) :
  InitialVisit.isBackForward (World.navigation w) && History.hasAnyState (World.history w) = true
  \/ SessionStorage.exists_ w SessionStorage.locationVisitKey = false ->
  World.sessionStorage (InitialVisit.handle w) = World.sessionStorage w.
Proof.
  intros Hcase.
  destruct (clearRememberedStateOnReload_frame w) as (Hnav & Hstore & _ & _ & Hany & _).
  unfold InitialVisit.handle. cbn [InitialVisit.find].
  set (w1 := InitialVisit.clearRememberedStateOnReload w) in *.
  unfold InitialVisit.handleBackForward. rewrite Hnav, Hany, <- negb_andb.
  destruct (InitialVisit.isBackForward (World.navigation w)
            && History.hasAnyState (World.history w)) eqn:Hbf; cbn [negb].
  - destruct (History.decrypt _); cbn; exact Hstore.
  - destruct Hcase as [Hcase | Hmarker]; [discriminate |].
    unfold InitialVisit.handleLocation, SessionStorage.exists_ in *.
    rewrite Hstore. destruct (World.sessionStorage w !! _); [discriminate |].
    cbn. exact Hstore.
Qed.

Lemma initialVisit_keeps_session_storage_witness :
  let current := Sample.page "Users/Index" "/users" [] in
  let entry := History.mk false (Some (History.mkEntry (Some current) None None)) in
  World.sessionStorage
    (InitialVisit.handle (Sample.browser current entry Sample.marker NavBackForward))
  = Sample.marker.
Proof.
  intros current entry.
  apply (initialVisit_keeps_session_storage
           (Sample.browser current entry Sample.marker NavBackForward)).
  left. reflexivity.
Defined.

(** X11. Every startup ends with exactly one closing signal, and it is the
    last thing that happens: [MissingHistoryItem] when a restore (back/
    forward or location resume) was attempted and [decrypt()] rejected, in
    which case no page is committed; the navigate event for the current
    page otherwise, after exactly one commit. *)
Theorem initialVisit_closing_signal `{Collaborators} (w : World.t) :
  let w' := InitialVisit.handle w in
  let restoring :=
    InitialVisit.isBackForward (World.navigation w) && History.hasAnyState (World.history w)
    || SessionStorage.exists_ w SessionStorage.locationVisitKey in
  let failed :=
    restoring && (match History.decrypt (World.history w) with
                  | Some _ => false
                  | None => true
                  end) in
  let closing e :=
    match e with NavigateEvent _ | MissingHistoryItem => true | _ => false end in
  let commit e := match e with PageSet _ _ => true | _ => false end in
  exists new,
    World.trace w' = (World.trace w ++ new)%list
    /\ length (List.filter closing new) = 1
    /\ last new = Some (if failed then MissingHistoryItem
                        else NavigateEvent (CurrentPage.get w'))
    /\ length (List.filter commit new) = (if failed then 0 else 1).
Proof.
  intros w' restoring failed closing commit.
  destruct (clearRememberedStateOnReload_frame w)
    as (Hnav & Hstore & _ & _ & Hany & Hdecrypt & _).
  assert (Hclear : exists cleared,
             World.trace (InitialVisit.clearRememberedStateOnReload w)
             = (World.trace w ++ cleared)%list
             /\ List.filter closing cleared = []
             /\ List.filter commit cleared = []).
  { unfold InitialVisit.clearRememberedStateOnReload.
    destruct (InitialVisit.isReload _); [exists [HistoryDelete "rememberedState"]
                                        | exists []]; cbn; rewrite ?app_nil_r; auto. }
  destruct Hclear as (cleared & Hcleared & Hc1 & Hc2).
  unfold w', failed, restoring, InitialVisit.handle. cbn [InitialVisit.find].
  set (w1 := InitialVisit.clearRememberedStateOnReload w) in *.
  unfold InitialVisit.handleBackForward. rewrite Hnav, Hany, <- negb_andb.
  destruct (InitialVisit.isBackForward (World.navigation w)
            && History.hasAnyState (World.history w)); cbn [negb orb andb].
  - cbn. rewrite Hdecrypt.
    destruct (History.decrypt (World.history w)); cbn; rewrite Hcleared, <- !app_assoc;
      eexists; (split; [reflexivity |]);
      rewrite !List.filter_app, Hc1, Hc2, last_app; cbn; auto.
  - unfold InitialVisit.handleLocation, SessionStorage.exists_, SessionStorage.get.
    rewrite Hstore.
    destruct (World.sessionStorage w !! SessionStorage.locationVisitKey) as [m |];
      cbn [negb].
    + cbn -[SessionStorage.locationVisitKey]. rewrite Hdecrypt.
      destruct (History.decrypt (World.history w)).
      * destruct (Js.truthy _); cbn -[SessionStorage.locationVisitKey];
          rewrite Hcleared, <- !app_assoc;
          eexists; (split; [reflexivity |]);
          rewrite !List.filter_app, Hc1, Hc2, last_app; cbn; auto.
      * cbn -[SessionStorage.locationVisitKey]. rewrite Hcleared, <- !app_assoc.
        eexists. split; [reflexivity |].
        rewrite !List.filter_app, Hc1, Hc2, last_app. cbn. auto.
    + cbn. rewrite Hcleared, <- !app_assoc.
      eexists. split; [reflexivity |].
      rewrite !List.filter_app, Hc1, Hc2, last_app. cbn. auto.
Qed.

(** X12. What the location-visit resume puts on the page.  The page that
    [decrypt()] resolves to is not used: the current page stays, with the
    remembered state and the scroll regions of the history entry attached
    (an empty object and an empty list when the entry has none).  After a
    reload the remembered state has been deleted before, so the resumed
    page always starts from an empty one. *)
Theorem initialVisit_resume_restores_state `{Collaborators} (w : World.t) (stored : Page.t) :
  InitialVisit.isBackForward (World.navigation w) && History.hasAnyState (World.history w)
    = false ->
  SessionStorage.exists_ w SessionStorage.locationVisitKey = true ->
  History.decrypt (World.history w) = Some stored ->
  let hashed := setUrlHash (CurrentPage.get w) (URL.hash (World.location w)) in
  let remembered :=
    if InitialVisit.isReload (World.navigation w) then []
    else match History.getRememberedState (World.history w) with
         | Some state => state
         | None => []
         end in
  let regions :=
    match History.getScrollRegions (World.history w) with
    | Some rs => rs
    | None => []
    end in
  CurrentPage.get (InitialVisit.handle w)
  = Page.withScrollRegions (Page.withRememberedState hashed (Some remembered)) (Some regions).
Proof.
  intros Hbf Hmarker Hdecrypt hashed remembered regions.
  destruct (clearRememberedStateOnReload_frame w)
    as (Hnav & Hstore & Hpage & Hloc & Hany & Hdec & Hregions & Hremembered).
  unfold InitialVisit.handle. cbn [InitialVisit.find].
  set (w1 := InitialVisit.clearRememberedStateOnReload w) in *.
  unfold InitialVisit.handleBackForward. rewrite Hnav, Hany, <- negb_andb, Hbf. cbn [negb].
  unfold InitialVisit.handleLocation, SessionStorage.exists_, SessionStorage.get in *.
  rewrite Hstore.
  destruct (World.sessionStorage w !! SessionStorage.locationVisitKey) as [m |];
    [| discriminate].
  cbn -[SessionStorage.locationVisitKey].
  rewrite Hdec, Hdecrypt, Hregions, Hremembered, Hpage, Hloc.
  unfold remembered, regions, hashed, CurrentPage.get.
  destruct (Js.truthy _), (InitialVisit.isReload _),
    (History.getRememberedState _), (History.getScrollRegions _); reflexivity.
Qed.

Lemma initialVisit_resume_restores_state_witness :
  let current := Sample.page "Users/Index" "/users" [] in
  let other := Sample.page "Users/Show" "/users/1" [] in
  let entry :=
    History.mk false
      (Some (History.mkEntry (Some other) (Some [("form", JStr "draft")]) None)) in
  Page.component
    (CurrentPage.get (InitialVisit.handle (Sample.browser current entry Sample.marker NavReload)))
  = "Users/Index"
  /\ Page.rememberedState
       (CurrentPage.get (InitialVisit.handle (Sample.browser current entry Sample.marker NavReload)))
     = Some [].
Proof.
  intros current other entry.
  rewrite (initialVisit_resume_restores_state
             (Sample.browser current entry Sample.marker NavReload) other
             eq_refl eq_refl eq_refl).
  split; reflexivity.
Defined.

(** ** The app component of the Vue adapter *)

Lemma layers_fold (props : Obj) (layouts : list string) (child : App.VNode) :
  App.layers (fold_left (fun child layout => App.H layout props (Some child))
                        (rev layouts) child)
  = (map (fun layout => (layout, props)) layouts ++ App.layers child)%list.
Proof.
  induction layouts as [| l layouts IH]; cbn; [reflexivity |].
  rewrite fold_left_app. cbn. now rewrite IH.
Qed.

(** X13. With an array of layouts the page is rendered inside all of
    them, the first layout outermost and the page component innermost;
    each layout receives a copy of the page props, and only the page
    component receives the key. *)
Theorem render_nests_layouts (s : App.State) (c : App.Component) (layouts : list string) :
  App.component s = Some c ->
  App.layout c = Some (App.LayoutArray layouts) ->
  exists node,
    snd (App.render s) = Some node
    /\ App.layers node
       = (map (fun layout => (layout, Js.assign [] (Page.props (App.page s)))) layouts
          ++ [(App.name c,
               Js.set (Js.assign [] (Page.props (App.page s))) "key" (App.key s))])%list.
Proof.
  intros Hc Hlayout. unfold App.render. rewrite Hc.
  destruct (App.inheritAttrs c); cbn [App.layout App.name snd]; rewrite Hlayout;
    eexists; (split; [reflexivity |]); apply layers_fold.
Qed.

Lemma render_nests_layouts_witness :
  let users := App.mkComponent "Users/Index" None (Some (App.LayoutArray ["App"; "Settings"])) in
  let s := App.mkState (Some users) (Sample.page "Users/Index" "/users" [("n", JNum 3)]) JNull in
  exists node,
    snd (App.render s) = Some node
    /\ map fst (App.layers node) = ["App"; "Settings"; "Users/Index"].
Proof.
  intros users s.
  destruct (render_nests_layouts s users ["App"; "Settings"] eq_refl eq_refl)
    as (node & Hnode & Hlayers).
  exists node. split; [exact Hnode |]. now rewrite Hlayers.
Defined.

(** X14. Edge cases of the layout: an empty layout array renders the bare
    page node, as no layout does, and a single layout component renders
    as the one-element array of it does. *)
Theorem render_layout_edge_cases (n : string) (attrs : option bool) (p : Page.t) (k : JsVal)
    (l : string) :
  let state layout := App.mkState (Some (App.mkComponent n attrs layout)) p k in
  snd (App.render (state (Some (App.LayoutArray [])))) = snd (App.render (state None))
  /\ snd (App.render (state (Some (App.LayoutComponent l))))
     = snd (App.render (state (Some (App.LayoutArray [l]))))
  /\ snd (App.render (state None))
     = Some (App.H n (Js.set (Js.assign [] (Page.props p)) "key" k) None).
Proof.
  intros state. unfold state, App.render. destruct attrs; cbn; auto.
Qed.

(** X15. Rendering settles the component object: [inheritAttrs] is set to
    false when it was undefined and is left alone otherwise, nothing else
    of the state changes, and rendering again returns the same node and
    changes nothing more.  Without a resolved component nothing is
    rendered. *)
Theorem render_settles (s : App.State) :
  App.render (fst (App.render s)) = App.render s
  /\ App.page (fst (App.render s)) = App.page s
  /\ App.key (fst (App.render s)) = App.key s
  /\ (App.component s = None -> App.render s = (s, None))
  /\ (forall c, App.component s = Some c ->
      exists c',
        App.component (fst (App.render s)) = Some c'
        /\ App.name c' = App.name c
        /\ App.layout c' = App.layout c
        /\ App.inheritAttrs c'
           = Some (match App.inheritAttrs c with Some b => b | None => false end)).
Proof.
  unfold App.render. destruct s as [[c |] p k]; cbn.
  - destruct c as [n [b |] layout]; cbn.
    + repeat split; try discriminate.
      intros c [= <-]. eexists. repeat split.
    + repeat split; try discriminate.
      intros c [= <-]. eexists. repeat split.
  - repeat split; try discriminate.
Qed.

Lemma render_settles_witness :
  let users := App.mkComponent "Users/Index" None None in
  let s := App.mkState (Some users) (Sample.page "Users/Index" "/users" []) JNull in
  exists c',
    App.component (fst (App.render s)) = Some c'
    /\ App.inheritAttrs c' = Some false.
Proof.
  intros users s.
  destruct (render_settles s) as (_ & _ & _ & _ & T).
  destruct (T users eq_refl) as (c' & Hc & _ & _ & Hattrs).
  exists c'. split; [exact Hc | exact Hattrs].
Defined.

(** X16. The key of the rendered page node across a swap, for any
    layout that is not a function: with [preserveState] the page node
    keeps the key it had (so the component instance is kept), without it
    the node is keyed by the time of the swap.  The page node is the
    innermost one, it is the swapped-in component, and apart from the key
    it has the swapped-in page's props. *)
Theorem swapComponent_key (s : App.State) (c : App.Component) (p : Page.t)
    (preserveState : bool) (now : Z) :
  (forall f, App.layout c <> Some (App.LayoutFunction f)) ->
  let newKey := if preserveState then App.key s else JNum now in
  exists node props,
    snd (App.render (App.swapComponent s c p preserveState now)) = Some node
    /\ last (App.layers node) = Some (App.name c, props)
    /\ Js.lookup props "key" = Some newKey
    /\ forall k, k <> "key" ->
         Js.lookup props k = Js.lookup (Js.assign [] (Page.props p)) k.
Proof.
  intros Hlayout newKey. unfold App.swapComponent, App.render.
  cbn [App.component App.page App.key]. fold newKey.
  assert (Hprops : Js.lookup (Js.set (Js.assign [] (Page.props p)) "key" newKey) "key"
                   = Some newKey
                   /\ forall k, k <> "key" ->
                        Js.lookup (Js.set (Js.assign [] (Page.props p)) "key" newKey) k
                        = Js.lookup (Js.assign [] (Page.props p)) k).
  { split; [now rewrite lookup_set, String.eqb_refl |].
    intros k Hk. rewrite lookup_set. apply String.eqb_neq in Hk.
    now rewrite String.eqb_sym, Hk. }
  assert (Hname : App.name (match App.inheritAttrs c with
                            | Some _ => c
                            | None => App.mkComponent (App.name c) (Some false) (App.layout c)
                            end) = App.name c
                  /\ App.layout (match App.inheritAttrs c with
                                 | Some _ => c
                                 | None => App.mkComponent (App.name c) (Some false) (App.layout c)
                                 end) = App.layout c).
  { destruct (App.inheritAttrs c); split; reflexivity. }
  destruct Hname as [-> ->].
  destruct (App.layout c) as [[f | layouts | l] |] eqn:Hl; cbn [snd].
  - now destruct (Hlayout f).
  - eexists _, _. split; [reflexivity |]. rewrite layers_fold, last_app. cbn.
    split; [reflexivity | exact Hprops].
  - eexists _, _. split; [reflexivity |]. cbn. split; [reflexivity | exact Hprops].
  - eexists _, _. split; [reflexivity |]. cbn. split; [reflexivity | exact Hprops].
Qed.

Lemma swapComponent_key_witness :
  let users := App.mkComponent "Users/Index" None (Some (App.LayoutComponent "App")) in
  let s := App.mkState (Some users) (Sample.page "Users/Index" "/users" []) (JNum 17) in
  exists node props,
    snd (App.render (App.swapComponent s users (Sample.page "Users/Index" "/users?page=2" [])
                       true 42)) = Some node
    /\ last (App.layers node) = Some ("Users/Index", props)
    /\ Js.lookup props "key" = Some (JNum 17).
Proof.
  intros users s.
  destruct (swapComponent_key s users (Sample.page "Users/Index" "/users?page=2" [])
              true 42) as (node & props & Hnode & Hlast & Hkey & _).
  - intros f. discriminate.
  - exists node, props. split; [exact Hnode | split; [exact Hlast | exact Hkey]].
Defined.

(** ** One response, one pair of callbacks *)

Lemma setPage_trace `{Collaborators} (w w' : World.t) (r r' : Response.t) :
  Response.setPage w r = Some (w', r') ->
  World.trace w' =
    (World.trace w
     ++ if Response.shouldSetPage w r (AxiosResponse.data (Response.response r))
        then [PageSet (CurrentPage.get w')
                (VisitOptions.mk (RequestParams.replace (Response.requestParams r'))
                                 (RequestParams.preserveScroll (Response.requestParams r'))
                                 (RequestParams.preserveState (Response.requestParams r')))]
        else [])%list.
Proof.
  unfold Response.setPage.
  destruct (Response.shouldSetPage w r _); cbn [negb].
  - destruct (Response.mergeProps w r _); [| discriminate]. now intros [= <- <-].
  - intros [= <- <-]. now rewrite app_nil_r.
Qed.

(** X17. A protocol response that [process()] resolves leaves this
    behind, in this order: [runCallbacks]; at most one commit, present
    exactly when [shouldSetPage] answered true, and it is the commit of
    the page that is current afterwards; then either the error event and
    [onError] with the scoped errors, when the current page has errors,
    or the success event and [onSuccess] with the current page, never
    both. *)
Theorem process_protocol_trace `{Collaborators} (w w' : World.t) (r r' : Response.t) :
  RequestParams.prefetch (Response.requestParams r) = false ->
  Response.isInertiaResponse r = true ->
  Response.process w r = Resolved (w', r') ->
  let current := CurrentPage.get w' in
  let errors := Js.or (Js.get (Page.props current) "errors") (JObj []) in
  let scoped := Response.getScopedErrors (Response.requestParams r') errors in
  let commits :=
    if Response.shouldSetPage w r (AxiosResponse.data (Response.response r))
    then [PageSet current
            (VisitOptions.mk (RequestParams.replace (Response.requestParams r'))
                             (RequestParams.preserveScroll (Response.requestParams r'))
                             (RequestParams.preserveState (Response.requestParams r')))]
    else [] in
  World.trace w' =
    (World.trace w ++ RunCallbacks :: commits
     ++ match Js.ownEntries errors with
        | [] => [SuccessEvent current; OnSuccess current]
        | _ :: _ => [ErrorEvent scoped; OnError scoped]
        end)%list.
Proof.
  intros Hprefetch Hinertia. unfold Response.process.
  rewrite Hprefetch, Hinertia. cbn [negb].
  destruct (Response.setPage _ r) as [[w3 r3] |] eqn:Hset; [| discriminate].
  apply setPage_trace in Hset.
  rewrite (shouldSetPage_reads_page _ w) in Hset by reflexivity.
  cbn [World.trace World.withHistory World.emit] in Hset.
  destruct (0 <? _)%nat eqn:Hkeys.
  - intros [= <- <-]. cbn zeta.
    change (CurrentPage.get (World.emit (World.emit w3 _) _)) with (CurrentPage.get w3).
    destruct (Js.ownEntries _); [discriminate Hkeys |].
    cbn [World.trace World.emit]. rewrite Hset, <- !app_assoc.
    cbn [app]. rewrite <- ?app_assoc. reflexivity.
  - apply keys_nil_iff in Hkeys.
    intros [= <- <-]. cbn zeta.
    change (CurrentPage.get (World.withHistory (World.emit (World.emit w3 _) _) _))
      with (CurrentPage.get w3).
    rewrite Hkeys.
    cbn [World.trace World.emit World.withHistory]. rewrite Hset, <- !app_assoc.
    cbn [app]. rewrite <- ?app_assoc. reflexivity.
Qed.

Lemma process_protocol_trace_witness :
  let current := Sample.page "Users/Index" "http://localhost/users" [] in
  let incoming := Sample.page "Users/Show" "http://localhost/users/1" [] in
  exists w' r',
    Response.process (Sample.world current) (Sample.visit false current incoming)
      = Resolved (w', r')
    /\ World.trace w' =
         [RunCallbacks; PageSet incoming (VisitOptions.mk false false false);
          SuccessEvent incoming; OnSuccess incoming].
Proof.
  intros current incoming.
  destruct (Response.process (Sample.world current) (Sample.visit false current incoming))
    as [[w' r'] | wr] eqn:Hrun.
  - exists w', r'. split; [reflexivity |].
    rewrite (process_protocol_trace (Sample.world current) w'
               (Sample.visit false current incoming) r' eq_refl eq_refl Hrun).
    vm_compute in Hrun. injection Hrun as <- <-. reflexivity.
  - vm_compute in Hrun. discriminate Hrun.
Defined.

(** ** Back/forward restore *)

(** X18. A back/forward navigation with history state whose entry
    decrypts makes the stored page the current page: it is committed with
    [preserveScroll] and [preserveState], the scroll positions are restored
    for it and the navigate event is fired for it.  Nothing else is
    called: the trace holds these four steps, so that no remembered state
    is deleted and session storage is neither read nor written. *)
Theorem initialVisit_back_forward_restores `{Collaborators} (w : World.t) (stored : Page.t) :
  World.navigation w = NavBackForward ->
  History.hasAnyState (World.history w) = true ->
  History.decrypt (World.history w) = Some stored ->
  InitialVisit.handle w
  = World.emit
      (World.emit
         (CurrentPage.set (World.emit w HistoryDecrypt) stored (VisitOptions.mk false true true))
         (ScrollRestore stored))
      (NavigateEvent stored)
  /\ CurrentPage.get (InitialVisit.handle w) = stored
  /\ World.trace (InitialVisit.handle w)
     = (World.trace w
        ++ [HistoryDecrypt; PageSet stored (VisitOptions.mk false true true);
            ScrollRestore stored; NavigateEvent stored])%list.
Proof.
  intros Hnav Hany Hdecrypt.
  assert (Hrun : InitialVisit.handle w
                 = World.emit
                     (World.emit
                        (CurrentPage.set (World.emit w HistoryDecrypt) stored
                           (VisitOptions.mk false true true))
                        (ScrollRestore stored))
                     (NavigateEvent stored)).
  { unfold InitialVisit.handle, InitialVisit.clearRememberedStateOnReload.
    rewrite Hnav. cbn [InitialVisit.isReload InitialVisit.find].
    unfold InitialVisit.handleBackForward. rewrite Hnav, Hany. cbn. now rewrite Hdecrypt. }
  rewrite Hrun. cbn. rewrite <- !app_assoc. auto.
Qed.

Lemma initialVisit_back_forward_restores_witness :
  let current := Sample.page "Users/Index" "/users" [] in
  let stored := Sample.page "Users/Show" "/users/1" [] in
  let entry := History.mk false (Some (History.mkEntry (Some stored) None None)) in
  CurrentPage.get (InitialVisit.handle (Sample.browser current entry ∅ NavBackForward)) = stored.
Proof.
  intros current stored entry.
  destruct (initialVisit_back_forward_restores
              (Sample.browser current entry ∅ NavBackForward) stored
              eq_refl eq_refl eq_refl) as (_ & T & _).
  exact T.
Defined.
